(** * AI Capability Programme Mapping: the state normaliser, the coverage
      engine, the report builder and the import/export transport of
      [src/App.tsx], embedded in Rocq.

    The program is a single React component over two pieces of state
    ([programme] and [items]).  The embedding follows the source function
    by function:

    - [JS]      the fragment of JavaScript the source relies on: dynamically
                typed values as [JSON.parse] produces them, [typeof],
                truthiness, property reads, object spread, and the string
                methods [toLowerCase], [trim], [replace], [padStart];
    - [Json]    [JSON.parse] as a recursive-descent parser;
    - [Content] [src/content/domains.ts] and [src/content/framing.ts];
    - [App]     [src/App.tsx].

    Strings are Rocq byte strings: a JavaScript string is represented by
    its UTF-8 encoding. *)

From Stdlib Require Import String Ascii List Bool Arith ZArith NArith Lia.
From Stdlib Require Import DecimalString Sorted.
Import ListNotations.

Open Scope string_scope.
Open Scope nat_scope.

(* ===================================================================== *)
(** * The JavaScript fragment                                            *)
(* ===================================================================== *)

Module JS.

(** A JSON number, kept as the decimal literal the parser read:
    [(-1)^neg * mantissa * 10^exp10]. *)
Record number := { neg : bool; mantissa : N; exp10 : Z }.

(** Values.  [JSON.parse] yields every constructor but [VUndefined], which
    is what a read of a missing property gives.  An object is the list of
    its own properties, each key once, in insertion order (JavaScript
    enumerates keys that are array indices ahead of the others; the
    program reads properties by name and counts them, so the order of the
    list decides nothing below). *)
#[local] Unset Elimination Schemes.
Inductive value : Type :=
| VUndefined
| VNull
| VBool (b : bool)
| VNum (n : number)
| VStr (s : string)
| VArr (xs : list value)
| VObj (fields : list (string * value)).
#[local] Set Elimination Schemes.

Definition object := list (string * value).

(** [typeof v] *)
Definition typeof (v : value) : string :=
  match v with
  | VUndefined => "undefined"
  | VNull => "object"
  | VBool _ => "boolean"
  | VNum _ => "number"
  | VStr _ => "string"
  | VArr _ => "object"
  | VObj _ => "object"
  end.

(** [Array.isArray(v)] *)
Definition isArray (v : value) : bool :=
  match v with VArr _ => true | _ => false end.

(** A decimal literal denotes the double [+0] or [-0] exactly when its
    magnitude is at most [2^-1075], half the least subnormal (round to
    nearest, ties to even). *)
Definition is_zero (n : number) : bool :=
  if (0 <=? exp10 n)%Z then (mantissa n =? 0)%N
  else (Z.of_N (mantissa n) * 2 ^ 1075 <=? 10 ^ (- exp10 n))%Z.

(** [ToBoolean]: what [if (v)], [v && _], [v || _] and [!v] test. *)
Definition truthy (v : value) : bool :=
  match v with
  | VUndefined | VNull => false
  | VBool b => b
  | VNum n => negb (is_zero n)
  | VStr s => negb (String.eqb s "")
  | VArr _ | VObj _ => true
  end.

(** Own-property lookup in an object (a property list over any kind of
    value). *)
Fixpoint lookup {V : Type} (o : list (string * V)) (k : string) : option V :=
  match o with
  | [] => None
  | (k', v) :: rest => if String.eqb k' k then Some v else lookup rest k
  end.

(** [o[k] = v]: overwrite in place, or append a new property. *)
Fixpoint set {V : Type} (o : list (string * V)) (k : string) (v : V)
  : list (string * V) :=
  match o with
  | [] => [(k, v)]
  | (k', v') :: rest =>
      if String.eqb k' k then (k', v) :: rest else (k', v') :: set rest k v
  end.

(** [Object.keys(o)] *)
Definition keys {V : Type} (o : list (string * V)) : list string := map fst o.

(** [v?.k] for the property names this program reads ([id], [type],
    [name], [notes], [domains], [programme], [items] and the six programme
    fields): none of them is defined on a prototype, so the read is an
    own-property lookup on an object and [undefined] on everything else. *)
Definition prop (v : value) (k : string) : value :=
  match v with
  | VObj o => match lookup o k with Some x => x | None => VUndefined end
  | _ => VUndefined
  end.

(** [String(n)] for a non-negative integer. *)
Definition string_of_nat (n : nat) : string :=
  NilEmpty.string_of_uint (Nat.to_uint n).

(** The own enumerable properties [{...v}] copies: the fields of an object,
    the indexed elements of an array, nothing for anything else the
    program spreads. *)
Fixpoint indexed (i : nat) (xs : list value) : object :=
  match xs with
  | [] => []
  | x :: rest => (string_of_nat i, x) :: indexed (S i) rest
  end.

Definition own_entries (v : value) : object :=
  match v with
  | VObj o => o
  | VArr xs => indexed 0 xs
  | _ => []
  end.

(** [{...a, ...b}] where [a] is already an object literal: every entry of
    [b] is assigned onto [a] in order. *)
Definition spread (a b : object) : object :=
  fold_left (fun o kv => set o (fst kv) (snd kv)) b a.

(** ** Strings *)

Definition nl : string := String (ascii_of_nat 10) "".

Definition is_upper (c : ascii) : bool :=
  let n := nat_of_ascii c in (65 <=? n) && (n <=? 90).
Definition is_lower (c : ascii) : bool :=
  let n := nat_of_ascii c in (97 <=? n) && (n <=? 122).
Definition is_digit (c : ascii) : bool :=
  let n := nat_of_ascii c in (48 <=? n) && (n <=? 57).

Definition lower_char (c : ascii) : ascii :=
  if is_upper c then ascii_of_nat (nat_of_ascii c + 32) else c.

(** [s.toLowerCase()].  On the ASCII range this is A-Z to a-z.  Outside
    it, lower-casing maps a non-ASCII character to non-ASCII characters
    with two exceptions, which are the only non-ASCII characters that can
    lower-case into the class [a-z0-9]: U+212A KELVIN SIGN (bytes
    226 132 170) gives [k], and U+0130 (bytes 196 176) gives [i] followed
    by U+0307 (bytes 204 135).  Other non-ASCII bytes are left as they
    are. *)
Fixpoint toLowerCase (s : string) : string :=
  match s with
  | EmptyString => EmptyString
  | String c rest =>
      match nat_of_ascii c, rest with
      | 226, String c1 (String c2 rest2) =>
          if (nat_of_ascii c1 =? 132) && (nat_of_ascii c2 =? 170)
          then String "k" (toLowerCase rest2)
          else String c (toLowerCase rest)
      | 196, String c1 rest1 =>
          if nat_of_ascii c1 =? 176
          then String "i" (String (ascii_of_nat 204)
                 (String (ascii_of_nat 135) (toLowerCase rest1)))
          else String c (toLowerCase rest)
      | _, _ => String (lower_char c) (toLowerCase rest)
      end
  end.

(** White space of the ASCII range: TAB, LF, VT, FF, CR and SPACE. *)
Definition is_space (c : ascii) : bool :=
  let n := nat_of_ascii c in ((9 <=? n) && (n <=? 13)) || (n =? 32).

Fixpoint trimStart (s : string) : string :=
  match s with
  | String c rest => if is_space c then trimStart rest else s
  | EmptyString => EmptyString
  end.

(** [trimEnd], right to left: drop the tail when all of it is blank. *)
Fixpoint trimEnd (s : string) : string :=
  match s with
  | EmptyString => EmptyString
  | String c rest =>
      match trimEnd rest with
      | EmptyString => if is_space c then EmptyString else String c EmptyString
      | rest' => String c rest'
      end
  end.

(** [s.trim()] (ASCII white space; the Unicode space separators are not
    modelled). *)
Definition trim (s : string) : string := trimEnd (trimStart s).

(** [a || b] on strings: the empty string is the only falsy one. *)
Definition or_else (a b : string) : string := if String.eqb a "" then b else a.

(** [xs.join(sep)] *)
Fixpoint join (sep : string) (xs : list string) : string :=
  match xs with
  | [] => ""
  | [x] => x
  | x :: rest => x ++ sep ++ join sep rest
  end.

(** [s.padStart(2, "0")] *)
Definition padStart2 (s : string) : string :=
  match String.length s with
  | 0 => "00"
  | 1 => "0" ++ s
  | _ => s
  end.

End JS.

(* ===================================================================== *)
(** * [JSON.parse]                                                       *)
(* ===================================================================== *)

Module Json.
Import JS.

(** The outcome of a parsing function: a result and the unread input, a
    syntax error (the [SyntaxError] that [JSON.parse] throws), or an
    exhausted recursion budget. *)
Inductive result (A : Type) : Type :=
| Ok (a : A) (rest : string)
| SyntaxError
| OutOfFuel.
Arguments Ok {A} a rest.
Arguments SyntaxError {A}.
Arguments OutOfFuel {A}.

Definition bind {A B} (r : result A) (k : A -> string -> result B) : result B :=
  match r with
  | Ok a rest => k a rest
  | SyntaxError => SyntaxError
  | OutOfFuel => OutOfFuel
  end.

Definition quote : ascii := ascii_of_nat 34.
Definition backslash : ascii := ascii_of_nat 92.

(** JSON white space: SPACE, TAB, LF, CR. *)
Definition is_ws (c : ascii) : bool :=
  let n := nat_of_ascii c in
  (n =? 32) || (n =? 9) || (n =? 10) || (n =? 13).

Fixpoint skip_ws (s : string) : string :=
  match s with
  | String c rest => if is_ws c then skip_ws rest else s
  | EmptyString => EmptyString
  end.

(** [expect lit s]: [s] with the literal [lit] taken off its front. *)
Fixpoint expect (lit s : string) : option string :=
  match lit, s with
  | EmptyString, _ => Some s
  | String a lit', String b s' => if Ascii.eqb a b then expect lit' s' else None
  | String _ _, EmptyString => None
  end.

(** [s] without its first character when that character is [c]. *)
Definition eat (c : ascii) (s : string) : option string :=
  match s with
  | String a rest => if Ascii.eqb a c then Some rest else None
  | EmptyString => None
  end.

(** *** Strings *)

Definition hex_val (c : ascii) : option N :=
  let n := nat_of_ascii c in
  if (48 <=? n) && (n <=? 57) then Some (N.of_nat (n - 48))
  else if (65 <=? n) && (n <=? 70) then Some (N.of_nat (n - 55))
  else if (97 <=? n) && (n <=? 102) then Some (N.of_nat (n - 87))
  else None.

Definition hex4 (a b c d : ascii) : option N :=
  match hex_val a, hex_val b, hex_val c, hex_val d with
  | Some x, Some y, Some z, Some w => Some (((x * 16 + y) * 16 + z) * 16 + w)%N
  | _, _, _, _ => None
  end.

Definition byte (n : N) : ascii := ascii_of_N n.

(** UTF-8 encoding of a code point (a lone surrogate is encoded like any
    other three-byte code point). *)
Definition utf8 (cp : N) : string :=
  (if cp <? 128 then String (byte cp) ""
   else if cp <? 2048 then
     String (byte (192 + cp / 64)) (String (byte (128 + cp mod 64)) "")
   else if cp <? 65536 then
     String (byte (224 + cp / 4096))
       (String (byte (128 + (cp / 64) mod 64))
          (String (byte (128 + cp mod 64)) ""))
   else
     String (byte (240 + cp / 262144))
       (String (byte (128 + (cp / 4096) mod 64))
          (String (byte (128 + (cp / 64) mod 64))
             (String (byte (128 + cp mod 64)) ""))))%N.

Definition is_high_surrogate (u : N) : bool := ((55296 <=? u) && (u <? 56320))%N.
Definition is_low_surrogate (u : N) : bool := ((56320 <=? u) && (u <? 57344))%N.

(** The low surrogate of a pair, when the input continues with one. *)
Definition low_surrogate (s : string) : option (N * string) :=
  match s with
  | String b (String u (String h1 (String h2 (String h3 (String h4 rest))))) =>
      if Ascii.eqb b backslash && Ascii.eqb u "u" then
        match hex4 h1 h2 h3 h4 with
        | Some lo => if is_low_surrogate lo then Some (lo, rest) else None
        | None => None
        end
      else None
  | _ => None
  end.

Definition simple_escape (e : ascii) : option ascii :=
  let n := nat_of_ascii e in
  if n =? 34 then Some quote                    (* quotation mark *)
  else if n =? 92 then Some backslash           (* reverse solidus *)
  else if n =? 47 then Some "/"%char
  else if n =? 98 then Some (ascii_of_nat 8)    (* b: backspace *)
  else if n =? 102 then Some (ascii_of_nat 12)  (* f: form feed *)
  else if n =? 110 then Some (ascii_of_nat 10)  (* n: line feed *)
  else if n =? 114 then Some (ascii_of_nat 13)  (* r: carriage return *)
  else if n =? 116 then Some (ascii_of_nat 9)   (* t: tab *)
  else None.

Definition prepend (pre : string) (r : result string) : result string :=
  bind r (fun body rest => Ok (pre ++ body) rest).

(** The characters of a string literal after its opening quote, up to and
    including the closing quote. *)
Fixpoint parse_chars (s : string) : result string :=
  match s with
  | EmptyString => SyntaxError
  | String c rest =>
      if Ascii.eqb c quote then Ok "" rest
      else if Ascii.eqb c backslash then
        match rest with
        | String e rest1 =>
            if Ascii.eqb e "u" then
              match rest1 with
              | String h1 (String h2 (String h3 (String h4 rest2))) =>
                  match hex4 h1 h2 h3 h4 with
                  | Some u =>
                      match (if is_high_surrogate u then low_surrogate rest2 else None) with
                      | Some (lo, _) =>
                          match rest2 with
                          | String _ (String _ (String _ (String _ (String _ (String _ rest3))))) =>
                              prepend
                                (utf8 (65536 + (u - 55296) * 1024 + (lo - 56320))%N)
                                (parse_chars rest3)
                          | _ => SyntaxError
                          end
                      | None => prepend (utf8 u) (parse_chars rest2)
                      end
                  | None => SyntaxError
                  end
              | _ => SyntaxError
              end
            else
              match simple_escape e with
              | Some x => prepend (String x "") (parse_chars rest1)
              | None => SyntaxError
              end
        | EmptyString => SyntaxError
        end
      else if nat_of_ascii c <? 32 then SyntaxError
      else prepend (String c "") (parse_chars rest)
  end.

(** *** Numbers *)

(** The longest prefix of decimal digits, most significant first. *)
Fixpoint digits (s : string) : list N * string :=
  match s with
  | String c rest =>
      if is_digit c then
        let (ds, rest') := digits rest in
        (N.of_nat (nat_of_ascii c - 48) :: ds, rest')
      else ([], s)
  | EmptyString => ([], EmptyString)
  end.

Definition N_of_digits (ds : list N) : N :=
  fold_left (fun acc d => acc * 10 + d)%N ds 0%N.

(** The optional fraction: a point and at least one digit. *)
Definition parse_fraction (s : string) : option (list N * string) :=
  match eat "." s with
  | Some s' =>
      let (fp, rest) := digits s' in
      match fp with [] => None | _ => Some (fp, rest) end
  | None => Some ([], s)
  end.

(** The digits of an exponent, at least one. *)
Definition exponent_digits (negative : bool) (s : string) : option (Z * string) :=
  let (ep, rest) := digits s in
  match ep with
  | [] => None
  | _ =>
      let e := Z.of_N (N_of_digits ep) in
      Some (if negative then (- e)%Z else e, rest)
  end.

(** The optional exponent: [e] or [E], an optional sign, digits. *)
Definition parse_exponent (s : string) : option (Z * string) :=
  match s with
  | String c s' =>
      if Ascii.eqb c "e" || Ascii.eqb c "E" then
        match eat "+" s', eat "-" s' with
        | Some s'', _ => exponent_digits false s''
        | None, Some s'' => exponent_digits true s''
        | None, None => exponent_digits false s'
        end
      else Some (0%Z, s)
  | EmptyString => Some (0%Z, s)
  end.

(** [int frac? exp?] after the optional minus sign; the integer part has
    no leading zero. *)
Definition parse_unsigned (sign : bool) (s : string) : result number :=
  let (ip, s1) := digits s in
  match ip with
  | [] => SyntaxError
  | d :: more =>
      if (d =? 0)%N && negb (length more =? 0) then SyntaxError
      else
        match parse_fraction s1 with
        | None => SyntaxError
        | Some (fp, s2) =>
            match parse_exponent s2 with
            | None => SyntaxError
            | Some (e, rest) =>
                Ok {| neg := sign;
                      mantissa := N_of_digits (ip ++ fp);
                      exp10 := (e - Z.of_nat (length fp))%Z |} rest
            end
        end
  end.

Definition parse_number (s : string) : result number :=
  match eat "-" s with
  | Some rest => parse_unsigned true rest
  | None => parse_unsigned false s
  end.

(** *** Values *)

(** One JSON value, leading white space skipped.  Every call that descends
    into a nested value spends one unit of [fuel]. *)
Fixpoint parse_value (fuel : nat) (s : string) : result value :=
  match fuel with
  | 0 => OutOfFuel
  | S fuel' =>
      match skip_ws s with
      | EmptyString => SyntaxError
      | String c rest =>
          if Ascii.eqb c "{" then
            match eat "}" (skip_ws rest) with
            | Some rest' => Ok (VObj []) rest'
            | None => bind (parse_members fuel' [] rest) (fun o r => Ok (VObj o) r)
            end
          else if Ascii.eqb c "[" then
            match eat "]" (skip_ws rest) with
            | Some rest' => Ok (VArr []) rest'
            | None => bind (parse_elements fuel' [] rest) (fun xs r => Ok (VArr xs) r)
            end
          else if Ascii.eqb c quote then
            bind (parse_chars rest) (fun str r => Ok (VStr str) r)
          else if Ascii.eqb c "t" then
            match expect "rue" rest with Some r => Ok (VBool true) r | None => SyntaxError end
          else if Ascii.eqb c "f" then
            match expect "alse" rest with Some r => Ok (VBool false) r | None => SyntaxError end
          else if Ascii.eqb c "n" then
            match expect "ull" rest with Some r => Ok VNull r | None => SyntaxError end
          else
            bind (parse_number (String c rest)) (fun n r => Ok (VNum n) r)
      end
  end

(** The elements of an array after the opening bracket, up to and including
    the closing one. *)
with parse_elements (fuel : nat) (acc : list value) (s : string) : result (list value) :=
  match fuel with
  | 0 => OutOfFuel
  | S fuel' =>
      bind (parse_value fuel' s) (fun v r =>
        match eat "," (skip_ws r), eat "]" (skip_ws r) with
        | Some r', _ => parse_elements fuel' (acc ++ [v])%list r'
        | None, Some r' => Ok (acc ++ [v])%list r'
        | None, None => SyntaxError
        end)
  end

(** The members of an object after the opening brace, up to and including
    the closing one.  A repeated key keeps its first position and takes the
    last value. *)
with parse_members (fuel : nat) (acc : object) (s : string) : result object :=
  match fuel with
  | 0 => OutOfFuel
  | S fuel' =>
      match eat quote (skip_ws s) with
      | Some r0 =>
          bind (parse_chars r0) (fun k r1 =>
            match eat ":" (skip_ws r1) with
            | Some r2 =>
                bind (parse_value fuel' r2) (fun v r3 =>
                  match eat "," (skip_ws r3), eat "}" (skip_ws r3) with
                  | Some r4, _ => parse_members fuel' (set acc k v) r4
                  | None, Some r4 => Ok (set acc k v) r4
                  | None, None => SyntaxError
                  end)
            | None => SyntaxError
            end)
      | None => SyntaxError
      end
  end.

(** [JSON.parse(text)]: [None] stands for the thrown [SyntaxError]. *)
Definition parse (text : string) : option value :=
  match parse_value (2 * String.length text + 2) text with
  | Ok v rest => if String.eqb (skip_ws rest) "" then Some v else None
  | _ => None
  end.

End Json.


(* ===================================================================== *)
(** * [src/content]: the domain registry and the framing texts           *)
(* ===================================================================== *)

Module Content.

(** [DomainKey] *)
Inductive DomainKey : Type :=
| awareness | coagency | practice | ethics | governance | reflection.

(** The string a [DomainKey] is at run time. *)
Definition key_string (k : DomainKey) : string :=
  match k with
  | awareness => "awareness"
  | coagency => "coagency"
  | practice => "practice"
  | ethics => "ethics"
  | governance => "governance"
  | reflection => "reflection"
  end.

Record Domain := { key : DomainKey; name : string; short : string; prompt : string }.

Definition DOMAINS : list Domain :=
  [ {| key := awareness;
       name := "Awareness & Orientation";
       short := "Awareness";
       prompt := "Consider current AI awareness, assumptions, and shared understanding in this programme context." |};
    {| key := coagency;
       name := "Human–AI Co-Agency";
       short := "Co-Agency";
       prompt := "Consider how people will partner with AI systems, maintain agency, and clarify roles and responsibilities." |};
    {| key := practice;
       name := "Applied Practice & Innovation";
       short := "Practice";
       prompt := "Consider where learners apply AI in authentic practice, experimentation, and improvement—beyond surface tool use." |};
    {| key := ethics;
       name := "Ethics, Equity & Impact";
       short := "Ethics";
       prompt := "Consider ethical risk, equity, accessibility, bias, and downstream impacts across learners and stakeholders." |};
    {| key := governance;
       name := "Decision-Making & Governance";
       short := "Governance";
       prompt := "Consider decision ownership, approval processes, safeguards, documentation, and institutional alignment." |};
    {| key := reflection;
       name := "Reflection, Learning & Renewal";
       short := "Renewal";
       prompt := "Consider how learning is reviewed, improved over time, and supported through reflective practice and feedback loops." |} ].

Definition TOOL_NAME : string := "AI Capability Programme Mapping".

Definition PURPOSE_TEXT : string :=
  "This tool supports reflective thinking and discussion. It does not provide definitive answers, recommendations, or compliance decisions.".

Definition LIMITATIONS_TEXT : string :=
  "This tool is designed to support reflective practice and informed discussion. It does not replace professional judgement, institutional policy, or formal governance processes.".

Definition PRIVACY_TEXT : string :=
  "This tool runs locally in your browser. Data is not sent anywhere by default.".

End Content.

(* ===================================================================== *)
(** * [src/App.tsx]                                                      *)
(* ===================================================================== *)

Module App.
Import JS.
Import Content.

(** ** The browser *)

(** What the program asks of its host at the time of a call: the local
    calendar date ([getFullYear], [getMonth] counted from 0, [getDate]),
    [new Date().toISOString()], and the stream of identifiers
    [crypto.randomUUID()] hands out. *)
Record Host := {
  fullYear : nat;
  month : nat;
  date : nat;
  nowISO : string;
  uuid : nat -> string
}.

(** Computations that draw identifiers: the state is the number of
    identifiers drawn so far. *)
Definition Gen (A : Type) : Type := nat -> A * nat.

Definition ret {A} (a : A) : Gen A := fun n => (a, n).

Definition bind {A B} (m : Gen A) (k : A -> Gen B) : Gen B :=
  fun n => let (a, n') := m n in k a n'.

Notation "x <- m ;; k" := (bind m (fun x => k))
  (at level 61, m at next level, right associativity).

(** [crypto.randomUUID()] *)
Definition randomUUID (h : Host) : Gen string := fun n => (uuid h n, S n).

(** [arr.map(f)] for an [f] that draws identifiers, left to right. *)
Fixpoint mapM {A B} (f : A -> Gen B) (xs : list A) : Gen (list B) :=
  match xs with
  | [] => ret []
  | x :: rest => y <- f x ;; ys <- mapM f rest ;; ret (y :: ys)
  end.

(** ** Types *)

Inductive MapItemType : Type := Module' | Activity | Assessment.

Definition type_string (t : MapItemType) : string :=
  match t with
  | Module' => "Module"
  | Activity => "Activity"
  | Assessment => "Assessment"
  end.

Definition type_eqb (a b : MapItemType) : bool :=
  match a, b with
  | Module', Module' | Activity, Activity | Assessment, Assessment => true
  | _, _ => false
  end.

(** [MapItem].  The declared type of [domains] is
    [Record<DomainKey, boolean>]; at run time it is whatever object
    [normalizeItems] built, so it is kept as an object here. *)
Record MapItem := {
  id : string;
  type : MapItemType;
  name : string;
  notes : string;
  domains : object
}.

Record ProgrammeDetails := {
  programmeTitle : string;
  awardLevel : string;
  department : string;
  institution : string;
  mappingDate : string;
  version : string
}.

Record ExportPayload := {
  tool : string;
  exportedAt : string;
  payload_programme : ProgrammeDetails;
  payload_items : list MapItem
}.

Definition STORAGE_KEY : string := "cloudpedagogy_programme_mapping_v1".

Definition PLURAL_LABELS (t : MapItemType) : string :=
  match t with
  | Module' => "Modules"
  | Activity => "Activities"
  | Assessment => "Assessments"
  end.

(** ** Construction and normalisation *)

Definition emptyDomains : object :=
  [ ("awareness", VBool false);
    ("coagency", VBool false);
    ("practice", VBool false);
    ("ethics", VBool false);
    ("governance", VBool false);
    ("reflection", VBool false) ].

Definition newItem (h : Host) (t : MapItemType) : Gen MapItem :=
  i <- randomUUID h ;;
  ret {| id := i; type := t; name := ""; notes := ""; domains := emptyDomains |}.

Definition todayISODate (h : Host) : string :=
  let yyyy := string_of_nat (fullYear h) in
  let mm := padStart2 (string_of_nat (month h + 1)) in
  let dd := padStart2 (string_of_nat (date h)) in
  yyyy ++ "-" ++ mm ++ "-" ++ dd.

Definition defaultProgrammeDetails (h : Host) : ProgrammeDetails :=
  {| programmeTitle := "";
     awardLevel := "";
     department := "";
     institution := "";
     mappingDate := todayISODate h;
     version := "v0.1" |}.

Definition coerceMapItemType (v : value) : MapItemType :=
  match v with
  | VStr s =>
      if String.eqb s "Module" then Module'
      else if String.eqb s "Activity" then Activity
      else if String.eqb s "Assessment" then Assessment
      else Module'
  | _ => Module'
  end.

(** [typeof v === "string" ? v : d] *)
Definition string_or (v : value) (d : string) : string :=
  match v with VStr s => s | _ => d end.

(** The callback of [arr.map] in [normalizeItems]. *)
Definition normalizeItem (h : Host) (it : value) : Gen MapItem :=
  i <- match prop it "id" with
       | VStr s => ret s
       | _ => randomUUID h
       end ;;
  ret {| id := i;
         type := coerceMapItemType (prop it "type");
         name := string_or (prop it "name") "";
         notes := string_or (prop it "notes") "";
         domains :=
           spread emptyDomains
             (let d := prop it "domains" in
              if String.eqb (typeof d) "object" && truthy d
              then own_entries d else []) |}.

Definition normalizeItems (h : Host) (itemsRaw : value) : Gen (list MapItem) :=
  let arr := match itemsRaw with VArr xs => xs | _ => [] end in
  if length arr =? 0 then (it <- newItem h Module' ;; ret [it])
  else mapM (normalizeItem h) arr.

Definition normalizeProgramme (h : Host) (p : value) : ProgrammeDetails :=
  let obj := if truthy p && String.eqb (typeof p) "object" then p else VObj [] in
  let base := defaultProgrammeDetails h in
  {| programmeTitle := string_or (prop obj "programmeTitle") (programmeTitle base);
     awardLevel := string_or (prop obj "awardLevel") (awardLevel base);
     department := string_or (prop obj "department") (department base);
     institution := string_or (prop obj "institution") (institution base);
     mappingDate := string_or (prop obj "mappingDate") (mappingDate base);
     version := string_or (prop obj "version") (version base) |}.

(** The component state: the two [useState] cells. *)
Record State := { programme : ProgrammeDetails; items : list MapItem }.

(** [loadState()]; [raw] is what [localStorage.getItem(STORAGE_KEY)]
    returned, [None] for [null].  A [JSON.parse] that throws lands in the
    [catch] branch. *)
Definition loadState (h : Host) (raw : option string) : Gen State :=
  match raw with
  | None | Some EmptyString =>
      it <- newItem h Module' ;;
      ret {| programme := defaultProgrammeDetails h; items := [it] |}
  | Some text =>
      match Json.parse text with
      | Some parsed =>
          let p := normalizeProgramme h (prop parsed "programme") in
          its <- normalizeItems h (prop parsed "items") ;;
          ret {| programme := p; items := its |}
      | None =>
          it <- newItem h Module' ;;
          ret {| programme := defaultProgrammeDetails h; items := [it] |}
      end
  end.

(** ** Slugs and table cells *)

Definition is_alnum (c : ascii) : bool := is_lower c || is_digit c.

Definition hyphen : ascii := "-"%char.

(** [.replace(/[^a-z0-9]+/g, "-")]: a left-to-right scan; [in_run] tells
    that the previous character belonged to a run already replaced. *)
Fixpoint replace_runs (in_run : bool) (s : string) : string :=
  match s with
  | EmptyString => EmptyString
  | String c rest =>
      if is_alnum c then String c (replace_runs false rest)
      else if in_run then replace_runs true rest
      else String hyphen (replace_runs true rest)
  end.

(** The [^-] alternative of [/(^-|-$)/g]: it can match at index 0 only. *)
Definition drop_leading_hyphen (s : string) : string :=
  match s with
  | String c rest => if Ascii.eqb c hyphen then rest else s
  | EmptyString => EmptyString
  end.

(** The [-$] alternative: it can match the last character only. *)
Fixpoint drop_trailing_hyphen (s : string) : string :=
  match s with
  | EmptyString => EmptyString
  | String c EmptyString => if Ascii.eqb c hyphen then EmptyString else s
  | String c rest => String c (drop_trailing_hyphen rest)
  end.

(** [.replace(/(^-|-$)/g, "")]: the scan tries index 0 first, then moves on
    through what is left. *)
Definition replace_edges (s : string) : string :=
  drop_trailing_hyphen (drop_leading_hyphen s).

Definition safeSlug (input : string) : string :=
  replace_edges (replace_runs false (toLowerCase (or_else input ""))).

(** [s.replace(/\|/g, "\\|")] *)
Fixpoint escapePipes (s : string) : string :=
  match s with
  | EmptyString => EmptyString
  | String c rest =>
      if Ascii.eqb c "|" then String Json.backslash (String c (escapePipes rest))
      else String c (escapePipes rest)
  end.

(** ** Coverage *)

(** The numbers the counters can hold: a count, or [NaN]. *)
Inductive num : Type := Int (n : nat) | NaN.

Definition num_add (a b : num) : num :=
  match a, b with
  | Int x, Int y => Int (x + y)
  | _, _ => NaN
  end.

(** [a - b] as the sort comparator uses it: [None] is [NaN]. *)
Definition num_sub (a b : num) : option Z :=
  match a, b with
  | Int x, Int y => Some (Z.of_nat x - Z.of_nat y)%Z
  | _, _ => None
  end.

Definition num_string (a : num) : string :=
  match a with
  | Int n => string_of_nat n
  | NaN => "NaN"
  end.

(** [a === n] for a literal [n] *)
Definition num_is (a : num) (n : nat) : bool :=
  match a with
  | Int x => x =? n
  | NaN => false
  end.

Definition counts : Type := list (string * num).

(** [counts[k]] read as a number: a missing property is [undefined], which
    arithmetic turns into [NaN]. *)
Definition count_of (c : counts) (k : string) : num :=
  match lookup c k with
  | Some x => x
  | None => NaN
  end.

(** [counts[k] += 1].  On a key outside the six the read is not a number
    and the sum is [NaN] (for the few names [Object.prototype] defines it
    is another non-number; no read in the program reaches those
    properties). *)
Definition bump (c : counts) (k : string) : counts :=
  set c k (num_add (count_of c k) (Int 1)).

(** [item.domains[k]] *)
Definition tag (o : object) (k : string) : value :=
  match lookup o k with
  | Some v => v
  | None => VUndefined
  end.

(** The body of the [coverage] memo. *)
Definition coverage (items : list MapItem) : counts :=
  let counts0 : counts :=
    [ ("awareness", Int 0);
      ("coagency", Int 0);
      ("practice", Int 0);
      ("ethics", Int 0);
      ("governance", Int 0);
      ("reflection", Int 0) ] in
  fold_left
    (fun counts item =>
       fold_left
         (fun counts k => if truthy (tag (domains item) k) then bump counts k else counts)
         (keys (domains item))
         counts)
    items counts0.

(** [coverage[d.key]] *)
Definition cov (c : counts) (d : Domain) : num := count_of c (key_string (key d)).

(** [DOMAINS.reduce((sum, d) => sum + coverage[d.key], 0)] *)
Definition totalDomainTags (c : counts) : num :=
  fold_left (fun sum d => num_add sum (cov c d)) DOMAINS (Int 0).

(** [x > 0] *)
Definition positive (x : num) : bool :=
  match x with
  | Int n => 0 <? n
  | NaN => false
  end.

Definition hasAnyTag (c : counts) : bool := positive (totalDomainTags c).

(** The [disabled] attribute of the two export buttons. *)
Definition exportDisabled (st : State) : bool := negb (hasAnyTag (coverage (items st))).

(** ** Observations *)

(** [Array.prototype.sort] is stable: with a comparator [cmp] the result is
    the input reordered so that [a] precedes [b] only if [cmp a b <= 0], and
    elements that compare equal keep their order.  Insertion from the right
    computes it; a comparator result of [NaN] counts as 0. *)
Section Sort.
Context {A : Type} (cmp : A -> A -> option Z).

Definition after (a b : A) : bool :=
  match cmp a b with
  | Some z => (0 <? z)%Z
  | None => false
  end.

Fixpoint insert (a : A) (l : list A) : list A :=
  match l with
  | [] => [a]
  | b :: rest => if after a b then b :: insert a rest else a :: b :: rest
  end.

Fixpoint sort (l : list A) : list A :=
  match l with
  | [] => []
  | a :: rest => insert a (sort rest)
  end.
End Sort.

(** [n === 1 ? "" : "s"] *)
Definition plural (n : num) : string := if num_is n 1 then "" else "s".

Definition sortedDomains (c : counts) : list Domain :=
  sort (fun a b => num_sub (cov c b) (cov c a)) DOMAINS.

(** [sorted[0]] *)
Definition most (c : counts) : option Domain := nth_error (sortedDomains c) 0.

(** [sorted[sorted.length - 1]] *)
Definition least (c : counts) : option Domain :=
  nth_error (sortedDomains c) (length (sortedDomains c) - 1).

Definition mostLine (c : counts) (d : Domain) : string :=
  "The most represented domain is **" ++ Content.name d ++ "** ("
    ++ num_string (cov c d) ++ " item" ++ plural (cov c d) ++ ").".

Definition leastLine (c : counts) (d : Domain) : string :=
  "The least represented domain is **" ++ Content.name d ++ "** ("
    ++ num_string (cov c d) ++ " item" ++ plural (cov c d) ++ ").".

(** The body of the [observations] memo. *)
Definition observations (c : counts) (totalItems : nat) : list string :=
  let lines0 :=
    [ "You mapped " ++ string_of_nat totalItems ++ " item"
        ++ (if totalItems =? 1 then "" else "s")
        ++ ". Domain tagging indicates where attention is currently concentrated." ] in
  let totalTagged := totalDomainTags c in
  let lines1 :=
    if positive totalTagged then
      let zeroDomains := filter (fun d => num_is (cov c d) 0) DOMAINS in
      (lines0
         ++ match most c with Some m => [mostLine c m] | None => [] end
         ++ match least c with Some l => [leastLine c l] | None => [] end
         ++ (if length zeroDomains =? 0 then []
             else [ ("No items were tagged for: "
                      ++ join ", " (map Content.name zeroDomains)
                      ++ ". This may indicate a gap, or that the domain is addressed implicitly rather than explicitly.")%string ]))%list
    else
      (lines0
         ++ [ "No domain tags yet. Add a few items and tag at least one domain to generate coverage insights." ])%list in
  (lines1 ++ [ "Treat these signals as prompts for discussion, not as performance scores." ])%list.

(** ** The Markdown report *)

(** [+++] appends lists of lines; [++] stays string concatenation. *)
Local Infix "+++" := (@List.app string) (at level 61, right associativity).

(** [groups[type]]: the items of one type, in their order. *)
Definition group (items : list MapItem) (t : MapItemType) : list MapItem :=
  filter (fun it => type_eqb (type it) t) items.

(** One table row of [renderType]; [idx] is the index [forEach] passes. *)
Definition renderRow (idx : nat) (it : MapItem) : string :=
  let name := or_else (trim (or_else (name it) "")) "Untitled" in
  let tags :=
    map short (filter (fun d => truthy (tag (domains it) (key_string (key d)))) DOMAINS) in
  let notes := trim (or_else (notes it) "") in
  "| " ++ string_of_nat (idx + 1) ++ " | " ++ escapePipes name ++ " | "
    ++ (if length tags =? 0 then "_None_" else escapePipes (join ", " tags))
    ++ " | "
    ++ (if String.eqb notes "" then "_—_" else escapePipes notes)
    ++ " |".

Fixpoint renderRows (idx : nat) (l : list MapItem) : list string :=
  match l with
  | [] => []
  | it :: rest => renderRow idx it :: renderRows (S idx) rest
  end.

(** The lines one call of [renderType] pushes. *)
Definition renderType (items : list MapItem) (t : MapItemType) : list string :=
  let list' := group items t in
  [ "### " ++ PLURAL_LABELS t; "" ]
     +++ (if length list' =? 0 then
           [ "_(No " ++ toLowerCase (PLURAL_LABELS t) ++ " added.)_"; "" ]
         else
           [ "| # | Item | Domain tags | Notes |"; "|---:|---|---|---|" ]
             +++ renderRows 0 list'
             +++ [ "" ]).

(** The lines pushed before the three item sections. *)
Definition reportHead (h : Host) (toolName exportedAtISO : string)
           (programme : ProgrammeDetails) (coverage : counts)
           (observations : list string) : list string :=
  let programmeTitle' := trim (or_else (programmeTitle programme) "Programme mapping") in
  let mappingDate' := trim (or_else (mappingDate programme) (todayISODate h)) in
  [ "# " ++ programmeTitle';
     "";
     "**Tool:** " ++ toolName;
     "**Exported:** " ++ exportedAtISO;
     "";
     "## Programme details";
     "";
     "- **Programme title:** " ++ or_else (trim (programmeTitle programme)) "—";
     "- **Award / level:** " ++ or_else (trim (awardLevel programme)) "—";
     "- **Department / faculty:** " ++ or_else (trim (department programme)) "—";
     "- **Institution:** " ++ or_else (trim (institution programme)) "—";
     "- **Mapping date:** " ++ mappingDate';
     "- **Version / notes:** " ++ or_else (trim (version programme)) "—";
     "";
     "## Purpose and framing";
     "";
     PURPOSE_TEXT;
     "";
     PRIVACY_TEXT;
     "";
     "## Coverage snapshot";
     "";
     "| Domain | Tagged items |";
     "|---|---:|" ]
     +++ map (fun d => "| " ++ escapePipes (Content.name d) ++ " | "
                        ++ num_string (cov coverage d) ++ " |") DOMAINS
     +++ [ "";
          "## Key observations";
          "" ]
     +++ map (fun line => "- " ++ line) observations
     +++ [ "";
          "## Domain lenses";
          "" ]
     +++ map (fun d => "- **" ++ Content.name d ++ ":** " ++ prompt d) DOMAINS
     +++ [ "";
          "## Mapping items (QA-ready view)";
          "";
          "_Items are grouped by type and include domain tags. Treat tags as interpretive lenses for discussion, not performance scores._";
          "" ].

(** The lines pushed after the three item sections. *)
Definition reportTail (items : list MapItem) (coverage : counts) : list string :=
  let totalTagged := totalDomainTags coverage in
  [ "## Interpretation prompts";
    "";
    "- What does the current pattern of domain tags suggest about the programme’s explicit emphasis? ("
      ++ string_of_nat (length items) ++ " item"
      ++ (if length items =? 1 then "" else "s") ++ ", "
      ++ num_string totalTagged ++ " domain tag" ++ plural totalTagged ++ ")";
    "- Which domains are highly visible because they are easy to describe (or easy to evidence), rather than most important?";
    "- Which domains might be present implicitly but not visible in module/activity/assessment descriptions?";
    "- Where are students required to exercise judgement with AI, not just use tools?";
    "- What governance or ethical risks are “owned” nowhere in the programme design?";
    "- What would it look like to strengthen one underrepresented domain without increasing workload?";
    "";
    "## Use and limitations";
    "";
    LIMITATIONS_TEXT;
    "";
    "_Next step (optional): paste this export into programme documentation (or QA/review notes), then revisit during review cycles._";
    "" ].

(** The array [md] when [buildMarkdown] reaches its [return]. *)
Definition markdownLines (h : Host) (toolName exportedAtISO : string)
           (programme : ProgrammeDetails) (items : list MapItem)
           (coverage : counts) (observations : list string) : list string :=
  reportHead h toolName exportedAtISO programme coverage observations
    +++ renderType items Module'
    +++ renderType items Activity
    +++ renderType items Assessment
    +++ reportTail items coverage.

Definition buildMarkdown (h : Host) (toolName exportedAtISO : string)
           (programme : ProgrammeDetails) (items : list MapItem)
           (coverage : counts) (observations : list string) : string :=
  join nl (markdownLines h toolName exportedAtISO programme items coverage observations).

(** ** Export and import *)

(** The file name stem both exports share: [`${safeTitle}-${date}`]. *)
Definition exportStem (h : Host) (p : ProgrammeDetails) : string :=
  let safeTitle :=
    or_else (safeSlug (or_else (programmeTitle p) "programme-mapping")) "programme-mapping" in
  let date := or_else (mappingDate p) (todayISODate h) in
  safeTitle ++ "-" ++ date.

(** [exportJSON()]: the file name and the payload handed to
    [downloadJSON]. *)
Definition exportJSON (h : Host) (st : State) : string * ExportPayload :=
  let payload :=
    {| tool := TOOL_NAME;
       exportedAt := nowISO h;
       payload_programme := programme st;
       payload_items := items st |} in
  (exportStem h (programme st) ++ ".json", payload).

(** [exportMarkdown()]: the file name and the text handed to
    [downloadText]. *)
Definition exportMarkdown (h : Host) (st : State) : string * string :=
  let exportedAt := nowISO h in
  let c := coverage (items st) in
  let md :=
    buildMarkdown h TOOL_NAME exportedAt (programme st) (items st) c
      (observations c (length (items st))) in
  (exportStem h (programme st) ++ ".md", md).

(** What the user is shown. *)
Inductive dialog : Type :=
| Alert (msg : string)
| Confirm (msg : string).

Definition NOT_JSON : string := "That file could not be parsed as JSON.".

Definition NOT_A_MAPPING : string :=
  "This JSON file does not look like a programme mapping export.".

Definition IMPORT_PROMPT : string :=
  "Import this mapping?" ++ nl ++ nl
    ++ "This will replace your current mapping in this browser. You may want to export first as a backup.".

(** [handleImportFile(file)]: [text] is the content of the file, [ok] the
    answer the user gives if [window.confirm] asks; the result is the state
    afterwards and the dialogs shown.  [nextItems] is a list, so the
    [!Array.isArray(nextItems)] half of the guard is false. *)
Definition handleImportFile (h : Host) (ok : bool) (text : string) (st : State)
  : Gen (State * list dialog) :=
  match Json.parse text with
  | None => ret (st, [Alert NOT_JSON])
  | Some parsed =>
      let nextProgramme := normalizeProgramme h (prop parsed "programme") in
      nextItems <- normalizeItems h (prop parsed "items") ;;
      if length nextItems =? 0 then ret (st, [Alert NOT_A_MAPPING])
      else if negb ok then ret (st, [Confirm IMPORT_PROMPT])
      else ret ({| programme := nextProgramme; items := nextItems |},
                [Confirm IMPORT_PROMPT])
  end.

(** ** Editing the mapping *)

(** [a ?? d] for a field of a patch: the patch's value when it has the
    field. *)
Definition patched {A : Type} (o : option A) (d : A) : A :=
  match o with Some x => x | None => d end.

(** [Partial<ProgrammeDetails>] as the call sites build it: each field is
    absent or holds a string. *)
Record ProgrammePatch := {
  patch_programmeTitle : option string;
  patch_awardLevel : option string;
  patch_department : option string;
  patch_institution : option string;
  patch_mappingDate : option string;
  patch_version : option string
}.

(** [updateProgramme(patch)]: the updater [{ ...prev, ...patch }]. *)
Definition updateProgramme (patch : ProgrammePatch) (prev : ProgrammeDetails)
  : ProgrammeDetails :=
  {| programmeTitle := patched (patch_programmeTitle patch) (programmeTitle prev);
     awardLevel := patched (patch_awardLevel patch) (awardLevel prev);
     department := patched (patch_department patch) (department prev);
     institution := patched (patch_institution patch) (institution prev);
     mappingDate := patched (patch_mappingDate patch) (mappingDate prev);
     version := patched (patch_version patch) (version prev) |}.

(** [Partial<MapItem>], likewise. *)
Record ItemPatch := {
  patch_id : option string;
  patch_type : option MapItemType;
  patch_name : option string;
  patch_notes : option string;
  patch_domains : option object
}.

(** [updateItem(id, patch)]: the updater
    [prev.map((it) => (it.id === id ? { ...it, ...patch } : it))]. *)
Definition updateItem (id0 : string) (patch : ItemPatch) (prev : list MapItem)
  : list MapItem :=
  map (fun it =>
         if String.eqb (id it) id0 then
           {| id := patched (patch_id patch) (id it);
              type := patched (patch_type patch) (type it);
              name := patched (patch_name patch) (name it);
              notes := patched (patch_notes patch) (notes it);
              domains := patched (patch_domains patch) (domains it) |}
         else it)
      prev.

(** [toggleDomain(id, key)]: on every item with that id,
    [{ ...it, domains: { ...it.domains, [key]: !it.domains[key] } }]. *)
Definition toggleDomain (id0 : string) (k : DomainKey) (prev : list MapItem)
  : list MapItem :=
  map (fun it =>
         if String.eqb (id it) id0 then
           {| id := id it;
              type := type it;
              name := name it;
              notes := notes it;
              domains :=
                set (domains it) (key_string k)
                    (VBool (negb (truthy (tag (domains it) (key_string k))))) |}
         else it)
      prev.

(** [addItem(type)]: the updater [[...prev, newItem(type)]]. *)
Definition addItem (h : Host) (t : MapItemType) (prev : list MapItem)
  : Gen (list MapItem) :=
  it <- newItem h t ;; ret (prev ++ [it])%list.


(** The [disabled] attribute of an item's Remove button. *)
Definition removeDisabled (st : State) : bool := length (items st) =? 1.

(** [clearAll()]; [ok] is the answer to [window.confirm]. *)
Definition clearAll (h : Host) (ok : bool) (st : State) : Gen State :=
  if negb ok then ret st
  else
    let p := defaultProgrammeDetails h in
    it <- newItem h Module' ;;
    ret {| programme := p; items := [it] |}.

End App.

(* ===================================================================== *)
(** * Specification-side notions                                         *)
(* ===================================================================== *)

(** What the properties below are stated with.  Nothing here is used by
    the embedding of the program. *)
Module Spec.
Import JS Content App.

(** The six canonical domain keys, in registry order. *)
Definition canonical_keys : list string := map (fun d => key_string (key d)) DOMAINS.

Definition mem (k : string) (ks : list string) : bool := existsb (String.eqb k) ks.

Fixpoint nodupb (ks : list string) : bool :=
  match ks with
  | [] => true
  | k :: rest => negb (mem k rest) && nodupb rest
  end.

Definition is_boolean (v : value) : bool :=
  match v with VBool _ => true | _ => false end.

Definition is_true (v : value) : bool :=
  match v with VBool true => true | _ => false end.

(** The domain-tags invariant: exactly the six canonical keys, each once,
    each mapped to a boolean. *)
Definition six_booleans (o : object) : bool :=
  forallb (fun k => mem k canonical_keys) (keys o)
  && forallb (fun k => mem k (keys o)) canonical_keys
  && nodupb (keys o)
  && forallb (fun kv => is_boolean (snd kv)) o.

(** What [normalizeItem] overlays on the six false tags: the entries of the
    element's [domains] value when that is an object or an array. *)
Definition source_tags (it : value) : object :=
  let d := prop it "domains" in
  if String.eqb (typeof d) "object" && truthy d then own_entries d else [].

(** The number of [true] domain-tag entries of one item, and of a list of
    items. *)
Definition true_entries (it : MapItem) : nat :=
  length (filter (fun kv => is_true (snd kv)) (domains it)).

Definition total_true_entries (items : list MapItem) : nat :=
  list_sum (map true_entries items).

(** A counter object holding exactly the six canonical keys. *)
Definition six_counts (a b c d e f : nat) : counts :=
  [ ("awareness", Int a); ("coagency", Int b); ("practice", Int c);
    ("ethics", Int d); ("governance", Int e); ("reflection", Int f) ].

(** The coverage count of a domain as a natural number. *)
Definition tagged (c : counts) (d : Domain) : nat :=
  match cov c d with Int n => n | NaN => 0 end.

(** Picking from a list by a key [f], ties broken by position. *)
Section Picks.
Context {A : Type} (f : A -> nat).

(** [x] is the first element of [l] among those of greatest key. *)
Definition first_of_max (l : list A) (x : A) : Prop :=
  exists pre post, l = (pre ++ x :: post)%list
    /\ Forall (fun y => f y < f x) pre /\ Forall (fun y => f y <= f x) post.

(** [x] is the first element of [l] among those of least key. *)
Definition first_of_min (l : list A) (x : A) : Prop :=
  exists pre post, l = (pre ++ x :: post)%list
    /\ Forall (fun y => f x < f y) pre /\ Forall (fun y => f x <= f y) post.

(** [x] is the last element of [l] among those of least key. *)
Definition last_of_min (l : list A) (x : A) : Prop :=
  exists pre post, l = (pre ++ x :: post)%list
    /\ Forall (fun y => f x <= f y) pre /\ Forall (fun y => f x < f y) post.
End Picks.

(** On the elements of [l] the comparator [cmp] orders by decreasing key. *)
Definition by_decreasing {A : Type} (cmp : A -> A -> option Z) (f : A -> nat)
           (l : list A) : Prop :=
  forall a b, In a l -> In b l -> after cmp a b = (f a <? f b).

(** The last element of a list. *)
Fixpoint last_error {A : Type} (l : list A) : option A :=
  match l with
  | [] => None
  | [a] => Some a
  | _ :: rest => last_error rest
  end.

(** The lines of one item section below its heading and the blank line
    after it: the placeholder when no item has type [t], the table
    otherwise. *)
Definition section_body (items : list MapItem) (t : MapItemType)
           (placeholder : string) (body : list string) : Prop :=
  (Forall (fun it => type it <> t) items -> body = [placeholder; ""])
  /\ (Exists (fun it => type it = t) items ->
      body = "| # | Item | Domain tags | Notes |" :: "|---:|---|---|---|"
               :: (renderRows 0 (group items t) ++ [""])%list).

(** The slug rule in the words of the specification: lower-case, collapse
    every run of non-alphanumeric characters to a single hyphen, trim the
    leading and trailing hyphens. *)

(** A character outside [a-z0-9] yields a hyphen exactly when it ends its
    run. *)
Fixpoint collapse_runs (s : string) : string :=
  match s with
  | EmptyString => EmptyString
  | String c rest =>
      if is_alnum c then String c (collapse_runs rest)
      else
        match rest with
        | EmptyString => String hyphen EmptyString
        | String c' _ =>
            if is_alnum c' then String hyphen (collapse_runs rest)
            else collapse_runs rest
        end
  end.

Fixpoint trim_leading_hyphens (s : string) : string :=
  match s with
  | String c rest => if Ascii.eqb c hyphen then trim_leading_hyphens rest else s
  | EmptyString => EmptyString
  end.

Fixpoint trim_trailing_hyphens (s : string) : string :=
  match s with
  | EmptyString => EmptyString
  | String c rest =>
      match trim_trailing_hyphens rest with
      | EmptyString => if Ascii.eqb c hyphen then EmptyString else String c EmptyString
      | rest' => String c rest'
      end
  end.

Definition slug (title : string) : string :=
  trim_trailing_hyphens (trim_leading_hyphens (collapse_runs (toLowerCase title))).

Definition starts_with_hyphen (s : string) : bool :=
  match s with String c _ => Ascii.eqb c hyphen | EmptyString => false end.

(** No two hyphens in a row. *)
Fixpoint single_hyphens (s : string) : bool :=
  match s with
  | String c ((String c' _) as rest) =>
      negb (Ascii.eqb c hyphen && Ascii.eqb c' hyphen) && single_hyphens rest
  | _ => true
  end.

(** ** Notions for the editing operations, the reload and the report *)

(** The JavaScript object a [MapItem] is: what [JSON.stringify] writes and
    [JSON.parse] reads back. *)
Definition itemValue (it : MapItem) : value :=
  VObj [ ("id", VStr (id it));
         ("type", VStr (type_string (type it)));
         ("name", VStr (name it));
         ("notes", VStr (notes it));
         ("domains", VObj (domains it)) ].

Definition itemsValue (its : list MapItem) : value := VArr (map itemValue its).

Definition programmeValue (p : ProgrammeDetails) : value :=
  VObj [ ("programmeTitle", VStr (programmeTitle p));
         ("awardLevel", VStr (awardLevel p));
         ("department", VStr (department p));
         ("institution", VStr (institution p));
         ("mappingDate", VStr (mappingDate p));
         ("version", VStr (version p)) ].

(** The record [{ programme, items }] the effect hook persists. *)
Definition stateValue (st : State) : value :=
  VObj [ ("programme", programmeValue (programme st));
         ("items", itemsValue (items st)) ].

(** The [ExportPayload] object [exportJSON] downloads. *)
Definition payloadValue (e : ExportPayload) : value :=
  VObj [ ("tool", VStr (tool e));
         ("exportedAt", VStr (exportedAt e));
         ("programme", programmeValue (payload_programme e));
         ("items", itemsValue (payload_items e)) ].

(** Tags as the program builds them: the six canonical keys come first, in
    registry order, and no key occurs twice (further keys may follow).
    This is the order of the property list; for an object none of whose
    keys is an array index it is also the order in which JavaScript
    enumerates the keys. *)
Definition tags_in_order (o : object) : Prop :=
  firstn 6 (keys o) = canonical_keys /\ nodupb (keys o) = true.

(** The number of items whose tag under key [k] is truthy. *)
Definition count_tagged (k : string) (items : list MapItem) : nat :=
  length (filter (fun it => truthy (tag (domains it) k)) items).

(** Some item carries a truthy tag under one of the six domain keys. *)
Definition any_tagged (items : list MapItem) : bool :=
  existsb (fun it =>
             existsb (fun d => truthy (tag (domains it) (key_string (key d)))) DOMAINS)
          items.

Definition key_eqb (a b : DomainKey) : bool :=
  String.eqb (key_string a) (key_string b).

(** Reading a table cell back: a backslash in front of a pipe is dropped. *)
Fixpoint unescapePipes (s : string) : string :=
  match s with
  | EmptyString => EmptyString
  | String c rest =>
      if Ascii.eqb c Json.backslash then
        match rest with
        | String c' rest' =>
            if Ascii.eqb c' "|" then String c' (unescapePipes rest')
            else String c (unescapePipes rest)
        | EmptyString => String c EmptyString
        end
      else String c (unescapePipes rest)
  end.

(** The number of pipes that do not directly follow a backslash;
    [after_backslash] tells whether the character before [s] was one. *)
Fixpoint bare_pipes (after_backslash : bool) (s : string) : nat :=
  match s with
  | EmptyString => 0
  | String c rest =>
      (if Ascii.eqb c "|" && negb after_backslash then 1 else 0)
      + bare_pipes (Ascii.eqb c Json.backslash) rest
  end.

Fixpoint all_chars (p : ascii -> bool) (s : string) : bool :=
  match s with
  | EmptyString => true
  | String c rest => p c && all_chars p rest
  end.

Fixpoint has_alnum (s : string) : bool :=
  match s with
  | EmptyString => false
  | String c rest => is_alnum c || has_alnum rest
  end.

(** The characters a slug is made of: [a-z], [0-9] and the hyphen. *)
Definition slug_char (c : ascii) : bool := is_alnum c || Ascii.eqb c hyphen.

Fixpoint ends_with_hyphen (s : string) : bool :=
  match s with
  | EmptyString => false
  | String c EmptyString => Ascii.eqb c hyphen
  | String _ rest => ends_with_hyphen rest
  end.

(** The shape of a slug: slug characters only, no hyphen at either end, no
    two hyphens in a row. *)
Definition slug_shaped (s : string) : bool :=
  all_chars slug_char s
  && negb (starts_with_hyphen s)
  && negb (ends_with_hyphen s)
  && single_hyphens s.

(** A decimal number of [n] digits. *)
Definition digits_of_length (n : nat) (s : string) : bool :=
  (String.length s =? n) && all_chars is_digit s.

(** The shape [YYYY-MM-DD]: ten characters, digits but for the two
    hyphens. *)
Definition iso_date_shaped (s : string) : bool :=
  digits_of_length 4 (substring 0 4 s)
  && String.eqb (substring 4 1 s) "-"
  && digits_of_length 2 (substring 5 2 s)
  && String.eqb (substring 7 1 s) "-"
  && digits_of_length 2 (substring 8 2 s)
  && (String.length s =? 10).

End Spec.

(* ===================================================================== *)
(** * Sample inputs                                                      *)
(* ===================================================================== *)

Module Samples.
Import JS Content App.

Definition dq : string := String Json.quote "".

(** A browser on 1 March 2024. *)
Definition host : Host :=
  {| fullYear := 2024;
     month := 2;
     date := 1;
     nowISO := "2024-03-01T10:00:00.000Z";
     uuid := fun n => "uuid-" ++ string_of_nat n |}.

(** [{"programme":{"programmeTitle":"X"},"items":[]}] *)
Definition empty_items_file : string :=
  "{" ++ dq ++ "programme" ++ dq ++ ":{" ++ dq ++ "programmeTitle" ++ dq ++ ":"
    ++ dq ++ "X" ++ dq ++ "}," ++ dq ++ "items" ++ dq ++ ":[]}".

(** [[{"domains":{"awareness":"yes","extra":1}}]] *)
Definition foreign_tags_file : string :=
  "[{" ++ dq ++ "domains" ++ dq ++ ":{" ++ dq ++ "awareness" ++ dq ++ ":"
    ++ dq ++ "yes" ++ dq ++ "," ++ dq ++ "extra" ++ dq ++ ":1}}]".

Definition one : number := {| neg := false; mantissa := 1; exp10 := 0 |}.

Definition tags (ks : list string) : object :=
  fold_left (fun o k => set o k (VBool true)) ks emptyDomains.

(** An Activity tagged for awareness and ethics. *)
Definition workshop : MapItem :=
  {| id := "a1"; type := Activity; name := "Workshop"; notes := "";
     domains := tags ["awareness"; "ethics"] |}.

(** A Module tagged for awareness only. *)
Definition foundations : MapItem :=
  {| id := "m1"; type := Module'; name := "Foundations"; notes := "";
     domains := tags ["awareness"] |}.

Definition public_health : ProgrammeDetails :=
  {| programmeTitle := "MSc Public Health!!";
     awardLevel := "";
     department := "";
     institution := "";
     mappingDate := "2024-03-01";
     version := "v0.1" |}.

Definition session : State := {| programme := public_health; items := [workshop] |}.

(** The text the effect hook stores for [session]. *)
Definition session_stored : string :=
  "{" ++ dq ++ "programme" ++ dq ++ ":{" ++ dq ++ "programmeTitle" ++ dq ++
    ":" ++ dq ++ "MSc Public Health!!" ++ dq ++ "," ++ dq ++
    "awardLevel" ++ dq ++ ":" ++ dq ++ "" ++ dq ++ "," ++ dq ++
    "department" ++ dq ++ ":" ++ dq ++ "" ++ dq ++ "," ++ dq ++
    "institution" ++ dq ++ ":" ++ dq ++ "" ++ dq ++ "," ++ dq ++
    "mappingDate" ++ dq ++ ":" ++ dq ++ "2024-03-01" ++ dq ++ "," ++ dq ++
    "version" ++ dq ++ ":" ++ dq ++ "v0.1" ++ dq ++ "}," ++ dq ++
    "items" ++ dq ++ ":[{" ++ dq ++ "id" ++ dq ++ ":" ++ dq ++
    "a1" ++ dq ++ "," ++ dq ++ "type" ++ dq ++ ":" ++ dq ++
    "Activity" ++ dq ++ "," ++ dq ++ "name" ++ dq ++ ":" ++ dq ++
    "Workshop" ++ dq ++ "," ++ dq ++ "notes" ++ dq ++ ":" ++ dq ++
    "" ++ dq ++ "," ++ dq ++ "domains" ++ dq ++ ":{" ++ dq ++
    "awareness" ++ dq ++ ":true," ++ dq ++ "coagency" ++ dq ++
    ":false," ++ dq ++ "practice" ++ dq ++ ":false," ++ dq ++
    "ethics" ++ dq ++ ":true," ++ dq ++ "governance" ++ dq ++
    ":false," ++ dq ++ "reflection" ++ dq ++ ":false}}]}".

(** The text of the JSON export of [session] made on [host], unindented. *)
Definition session_exported : string :=
  "{" ++ dq ++ "tool" ++ dq ++ ":" ++ dq ++
    "AI Capability Programme Mapping" ++ dq ++ "," ++ dq ++
    "exportedAt" ++ dq ++ ":" ++ dq ++ "2024-03-01T10:00:00.000Z" ++ dq ++
    "," ++ dq ++ "programme" ++ dq ++ ":{" ++ dq ++
    "programmeTitle" ++ dq ++ ":" ++ dq ++ "MSc Public Health!!" ++ dq ++
    "," ++ dq ++ "awardLevel" ++ dq ++ ":" ++ dq ++ "" ++ dq ++
    "," ++ dq ++ "department" ++ dq ++ ":" ++ dq ++ "" ++ dq ++
    "," ++ dq ++ "institution" ++ dq ++ ":" ++ dq ++ "" ++ dq ++
    "," ++ dq ++ "mappingDate" ++ dq ++ ":" ++ dq ++ "2024-03-01" ++ dq ++
    "," ++ dq ++ "version" ++ dq ++ ":" ++ dq ++ "v0.1" ++ dq ++
    "}," ++ dq ++ "items" ++ dq ++ ":[{" ++ dq ++ "id" ++ dq ++
    ":" ++ dq ++ "a1" ++ dq ++ "," ++ dq ++ "type" ++ dq ++ ":" ++ dq ++
    "Activity" ++ dq ++ "," ++ dq ++ "name" ++ dq ++ ":" ++ dq ++
    "Workshop" ++ dq ++ "," ++ dq ++ "notes" ++ dq ++ ":" ++ dq ++
    "" ++ dq ++ "," ++ dq ++ "domains" ++ dq ++ ":{" ++ dq ++
    "awareness" ++ dq ++ ":true," ++ dq ++ "coagency" ++ dq ++
    ":false," ++ dq ++ "practice" ++ dq ++ ":false," ++ dq ++
    "ethics" ++ dq ++ ":true," ++ dq ++ "governance" ++ dq ++
    ":false," ++ dq ++ "reflection" ++ dq ++ ":false}}]}".

(** Two items that share an identifier, as an imported file can have. *)
Definition twins : list MapItem :=
  [ {| id := "dup"; type := Module'; name := "A"; notes := ""; domains := tags [] |};
    {| id := "dup"; type := Activity; name := "B"; notes := ""; domains := tags ["ethics"] |} ].

(** Two items without a truthy tag; one tag is [null] rather than [false]. *)
Definition untagged : list MapItem :=
  [ {| id := "u1"; type := Module'; name := ""; notes := ""; domains := emptyDomains |};
    {| id := "u2"; type := Assessment; name := "Exam"; notes := "";
       domains := set emptyDomains "ethics" VNull |} ].

Definition rename (s : string) : ItemPatch :=
  {| patch_id := None; patch_type := None; patch_name := Some s;
     patch_notes := None; patch_domains := None |}.

End Samples.

Import JS Content App.

(* ===================================================================== *)
(** * [JSON.parse]: the recursion budget is never the reason to fail     *)
(* ===================================================================== *)

Module JsonFacts.
Import Json.

Section Parser.

Lemma skip_ws_length s : String.length (skip_ws s) <= String.length s.
Proof.
  induction s as [|c rest IH]; simpl; [lia|].
  destruct (is_ws c); simpl; lia.
Qed.

Lemma eat_length c s r : eat c s = Some r -> String.length s = S (String.length r).
Proof.
  destruct s as [|a rest]; simpl; [discriminate|].
  destruct (Ascii.eqb a c); [|discriminate]. now intros [= ->].
Qed.

Lemma expect_length lit : forall s r,
  expect lit s = Some r -> String.length r <= String.length s.
Proof.
  induction lit as [|a lit IH]; intros s r; simpl.
  - now intros [= ->].
  - destruct s as [|b s']; [discriminate|].
    destruct (Ascii.eqb a b); [|discriminate].
    intros H. apply IH in H. simpl. lia.
Qed.

Lemma bind_ok {A B} (m : result A) (k : A -> string -> result B) b r :
  bind m k = Ok b r -> exists a r', m = Ok a r' /\ k a r' = Ok b r.
Proof. destruct m; simpl; try discriminate. eauto. Qed.

Lemma prepend_ok pre m x r :
  prepend pre m = Ok x r -> exists body, m = Ok body r.
Proof.
  unfold prepend. intros H. apply bind_ok in H.
  destruct H as (a & r' & -> & [= _ ->]). eauto.
Qed.

Lemma parse_chars_consumes n : forall s x r,
  String.length s <= n -> parse_chars s = Ok x r -> String.length r < String.length s.
Proof.
  induction n as [|n IH]; intros s x r Hn.
  - destruct s; [discriminate | simpl in Hn; lia].
  - destruct s as [|c rest]; [discriminate|]. simpl in Hn.
    cbn [parse_chars].
    destruct (Ascii.eqb c quote); [intros [= _ ->]; simpl; lia|].
    destruct (Ascii.eqb c backslash).
    + destruct rest as [|e rest1]; [discriminate|].
      destruct (Ascii.eqb e "u").
      * destruct rest1 as [|h1 [|h2 [|h3 [|h4 rest2]]]]; try discriminate.
        destruct (hex4 h1 h2 h3 h4); [|discriminate].
        destruct (if is_high_surrogate n0 then low_surrogate rest2 else None) as [[lo ?]|].
        -- destruct rest2 as [|? [|? [|? [|? [|? [|? rest3]]]]]]; try discriminate.
           intros H. apply prepend_ok in H. destruct H as [body H].
           apply IH in H; simpl in *; lia.
        -- intros H. apply prepend_ok in H. destruct H as [body H].
           apply IH in H; simpl in *; lia.
      * destruct (simple_escape e); [|discriminate].
        intros H. apply prepend_ok in H. destruct H as [body H].
        apply IH in H; simpl in *; lia.
    + destruct (nat_of_ascii c <? 32); [discriminate|].
      intros H. apply prepend_ok in H. destruct H as [body H].
      apply IH in H; simpl in *; lia.
Qed.

Lemma digits_length s : String.length (snd (digits s)) <= String.length s
  /\ (fst (digits s) <> [] -> String.length (snd (digits s)) < String.length s).
Proof.
  induction s as [|c rest [IH1 IH2]]; simpl; [split; [lia|intros H; now elim H]|].
  destruct (is_digit c).
  - destruct (digits rest) as [ds r]. simpl in *. split; [lia|]. intros _. lia.
  - simpl. split; [lia|]. intros H. now elim H.
Qed.

Lemma parse_fraction_length s fp r :
  parse_fraction s = Some (fp, r) -> String.length r <= String.length s.
Proof.
  unfold parse_fraction. destruct (eat "." s) as [s'|] eqn:E.
  - apply eat_length in E. pose proof (proj1 (digits_length s')) as H.
    destruct (digits s') as [fp' r']. simpl in H.
    destruct fp'; [discriminate|]. intros [= _ <-]. lia.
  - intros [= _ <-]. lia.
Qed.

Lemma exponent_digits_length b s e r :
  exponent_digits b s = Some (e, r) -> String.length r <= String.length s.
Proof.
  unfold exponent_digits. pose proof (proj1 (digits_length s)) as H.
  destruct (digits s) as [ep r']. simpl in H.
  destruct ep; [discriminate|]. now intros [= _ <-].
Qed.

Lemma parse_exponent_length s e r :
  parse_exponent s = Some (e, r) -> String.length r <= String.length s.
Proof.
  unfold parse_exponent. destruct s as [|c s']; [now intros [= _ <-]|].
  destruct (Ascii.eqb c "e" || Ascii.eqb c "E"); [|now intros [= _ <-]].
  destruct (eat "+" s') as [s''|] eqn:Ep; [|destruct (eat "-" s') as [s''|] eqn:Em];
    intros H; apply exponent_digits_length in H;
    try apply eat_length in Ep; try apply eat_length in Em; simpl; lia.
Qed.

Lemma parse_unsigned_consumes sign s n r :
  parse_unsigned sign s = Ok n r -> String.length r < String.length s.
Proof.
  unfold parse_unsigned.
  pose proof (proj2 (digits_length s)) as Hs. destruct (digits s) as [ip s1]. simpl in Hs.
  destruct ip as [|d more]; [discriminate|].
  specialize (Hs ltac:(discriminate)).
  destruct ((d =? 0)%N && negb (length more =? 0)); [discriminate|].
  destruct (parse_fraction s1) as [[fp s2]|] eqn:Ef; [|discriminate].
  destruct (parse_exponent s2) as [[e rest]|] eqn:Ee; [|discriminate].
  intros [= _ <-].
  apply parse_fraction_length in Ef. apply parse_exponent_length in Ee. lia.
Qed.

Lemma parse_number_consumes s n r :
  parse_number s = Ok n r -> String.length r < String.length s.
Proof.
  unfold parse_number. destruct (eat "-" s) as [s'|] eqn:E; intros H;
    apply parse_unsigned_consumes in H; [apply eat_length in E|]; lia.
Qed.

(** A successful parse reads at least one character. *)
Lemma parse_consumes fuel :
  (forall s v r, parse_value fuel s = Ok v r -> String.length r < String.length s)
  /\ (forall acc s xs r,
        parse_elements fuel acc s = Ok xs r -> String.length r < String.length s)
  /\ (forall acc s o r,
        parse_members fuel acc s = Ok o r -> String.length r < String.length s).
Proof.
  induction fuel as [|fuel (IHv & IHe & IHm)];
    [repeat split; intros; discriminate|].
  repeat split.
  - intros s v r. cbn [parse_value].
    pose proof (skip_ws_length s) as Hws.
    destruct (skip_ws s) as [|c rest]; [discriminate|]. simpl in Hws.
    destruct (Ascii.eqb c "{").
    { pose proof (skip_ws_length rest) as Hws'.
      destruct (eat "}" (skip_ws rest)) as [rest'|] eqn:E.
      - intros [= _ <-]. apply eat_length in E. lia.
      - intros H. apply bind_ok in H. destruct H as (o & r' & H & [= _ <-]).
        apply IHm in H. lia. }
    destruct (Ascii.eqb c "[").
    { pose proof (skip_ws_length rest) as Hws'.
      destruct (eat "]" (skip_ws rest)) as [rest'|] eqn:E.
      - intros [= _ <-]. apply eat_length in E. lia.
      - intros H. apply bind_ok in H. destruct H as (o & r' & H & [= _ <-]).
        apply IHe in H. lia. }
    destruct (Ascii.eqb c quote).
    { intros H. apply bind_ok in H. destruct H as (o & r' & H & [= _ <-]).
      apply (parse_chars_consumes (String.length rest)) in H; lia. }
    destruct (Ascii.eqb c "t").
    { destruct (expect "rue" rest) eqn:E; [|discriminate].
      intros [= _ <-]. apply expect_length in E. lia. }
    destruct (Ascii.eqb c "f").
    { destruct (expect "alse" rest) eqn:E; [|discriminate].
      intros [= _ <-]. apply expect_length in E. lia. }
    destruct (Ascii.eqb c "n").
    { destruct (expect "ull" rest) eqn:E; [|discriminate].
      intros [= _ <-]. apply expect_length in E. lia. }
    intros H. apply bind_ok in H. destruct H as (o & r' & H & [= _ <-]).
    apply parse_number_consumes in H. simpl in H. lia.
  - intros acc s xs r. cbn [parse_elements].
    intros H. apply bind_ok in H. destruct H as (v & r1 & Hv & H).
    apply IHv in Hv. pose proof (skip_ws_length r1) as Hws.
    destruct (eat "," (skip_ws r1)) as [r'|] eqn:Ec.
    + apply eat_length in Ec. apply IHe in H. lia.
    + destruct (eat "]" (skip_ws r1)) as [r'|] eqn:Eb; [|discriminate].
      apply eat_length in Eb. injection H as _ <-. lia.
  - intros acc s o r. cbn [parse_members].
    pose proof (skip_ws_length s) as Hws.
    destruct (eat quote (skip_ws s)) as [r0|] eqn:Eq; [|discriminate].
    apply eat_length in Eq.
    intros H. apply bind_ok in H. destruct H as (k & r1 & Hk & H).
    apply (parse_chars_consumes (String.length r0)) in Hk; [|lia].
    pose proof (skip_ws_length r1) as Hws1.
    destruct (eat ":" (skip_ws r1)) as [r2|] eqn:Ecol; [|discriminate].
    apply eat_length in Ecol.
    apply bind_ok in H. destruct H as (v & r3 & Hv & H).
    apply IHv in Hv. pose proof (skip_ws_length r3) as Hws3.
    destruct (eat "," (skip_ws r3)) as [r4|] eqn:Ec.
    + apply eat_length in Ec. apply IHm in H. lia.
    + destruct (eat "}" (skip_ws r3)) as [r4|] eqn:Eb; [|discriminate].
      apply eat_length in Eb. injection H as _ <-. lia.
Qed.

Lemma bind_fuel {A B} (m : result A) (k : A -> string -> result B) :
  m <> OutOfFuel -> (forall a r, m = Ok a r -> k a r <> OutOfFuel) ->
  bind m k <> OutOfFuel.
Proof. destruct m; simpl; intros Hm Hk; [now apply Hk | discriminate | contradiction]. Qed.

Lemma prepend_fuel pre m : m <> OutOfFuel -> prepend pre m <> OutOfFuel.
Proof. intros H. apply bind_fuel; [exact H | discriminate]. Qed.

Lemma parse_chars_fuel n : forall s, String.length s <= n -> parse_chars s <> OutOfFuel.
Proof.
  induction n as [|n IH]; intros s Hn.
  - destruct s; [discriminate | simpl in Hn; lia].
  - destruct s as [|c rest]; [discriminate|]. simpl in Hn.
    cbn [parse_chars].
    destruct (Ascii.eqb c quote); [discriminate|].
    destruct (Ascii.eqb c backslash).
    + destruct rest as [|e rest1]; [discriminate|].
      destruct (Ascii.eqb e "u").
      * destruct rest1 as [|h1 [|h2 [|h3 [|h4 rest2]]]]; try discriminate.
        destruct (hex4 h1 h2 h3 h4); [|discriminate].
        destruct (if is_high_surrogate n0 then low_surrogate rest2 else None) as [[lo ?]|].
        -- destruct rest2 as [|? [|? [|? [|? [|? [|? rest3]]]]]]; try discriminate.
           apply prepend_fuel, IH. simpl in *. lia.
        -- apply prepend_fuel, IH. simpl in *. lia.
      * destruct (simple_escape e); [|discriminate].
        apply prepend_fuel, IH. simpl in *. lia.
    + destruct (nat_of_ascii c <? 32); [discriminate|].
      apply prepend_fuel, IH. lia.
Qed.

Lemma parse_number_fuel s : parse_number s <> OutOfFuel.
Proof.
  unfold parse_number, parse_unsigned.
  destruct (eat "-" s) as [s'|].
  - destruct (digits s') as [[|d more] s1]; [discriminate|].
    destruct ((d =? 0)%N && negb (length more =? 0)); [discriminate|].
    destruct (parse_fraction s1) as [[fp s2]|]; [|discriminate].
    destruct (parse_exponent s2) as [[e rest]|]; discriminate.
  - destruct (digits s) as [[|d more] s1]; [discriminate|].
    destruct ((d =? 0)%N && negb (length more =? 0)); [discriminate|].
    destruct (parse_fraction s1) as [[fp s2]|]; [|discriminate].
    destruct (parse_exponent s2) as [[e rest]|]; discriminate.
Qed.

(** Twice the length of the input is fuel enough. *)
Lemma parse_fuel fuel :
  (forall s, 2 * String.length s + 1 <= fuel -> parse_value fuel s <> OutOfFuel)
  /\ (forall acc s, 2 * String.length s + 2 <= fuel ->
                    parse_elements fuel acc s <> OutOfFuel)
  /\ (forall acc s, 2 * String.length s + 2 <= fuel ->
                    parse_members fuel acc s <> OutOfFuel).
Proof.
  induction fuel as [|fuel (IHv & IHe & IHm)];
    [repeat split; intros; lia|].
  repeat split.
  - intros s Hf. cbn [parse_value].
    pose proof (skip_ws_length s) as Hws.
    destruct (skip_ws s) as [|c rest]; [discriminate|]. simpl in Hws.
    pose proof (skip_ws_length rest) as Hws'.
    destruct (Ascii.eqb c "{").
    { destruct (eat "}" (skip_ws rest)); [discriminate|].
      apply bind_fuel; [apply IHm; lia | discriminate]. }
    destruct (Ascii.eqb c "[").
    { destruct (eat "]" (skip_ws rest)); [discriminate|].
      apply bind_fuel; [apply IHe; lia | discriminate]. }
    destruct (Ascii.eqb c quote).
    { apply bind_fuel; [|discriminate].
      apply (parse_chars_fuel (String.length rest)). lia. }
    destruct (Ascii.eqb c "t"); [destruct (expect "rue" rest); discriminate|].
    destruct (Ascii.eqb c "f"); [destruct (expect "alse" rest); discriminate|].
    destruct (Ascii.eqb c "n"); [destruct (expect "ull" rest); discriminate|].
    apply bind_fuel; [apply parse_number_fuel | discriminate].
  - intros acc s Hf. cbn [parse_elements].
    apply bind_fuel; [apply IHv; lia|].
    intros v r1 Hv. apply (proj1 (parse_consumes fuel)) in Hv.
    pose proof (skip_ws_length r1) as Hws.
    destruct (eat "," (skip_ws r1)) as [r'|] eqn:Ec.
    + apply eat_length in Ec. apply IHe. lia.
    + destruct (eat "]" (skip_ws r1)); discriminate.
  - intros acc s Hf. cbn [parse_members].
    pose proof (skip_ws_length s) as Hws.
    destruct (eat quote (skip_ws s)) as [r0|] eqn:Eq; [|discriminate].
    apply eat_length in Eq.
    apply bind_fuel; [apply (parse_chars_fuel (String.length r0)); lia|].
    intros k r1 Hk.
    apply (parse_chars_consumes (String.length r0)) in Hk; [|lia].
    pose proof (skip_ws_length r1) as Hws1.
    destruct (eat ":" (skip_ws r1)) as [r2|] eqn:Ecol; [|discriminate].
    apply eat_length in Ecol.
    apply bind_fuel; [apply IHv; lia|].
    intros v r3 Hv. apply (proj1 (parse_consumes fuel)) in Hv.
    pose proof (skip_ws_length r3) as Hws3.
    destruct (eat "," (skip_ws r3)) as [r4|] eqn:Ec.
    + apply eat_length in Ec. apply IHm. lia.
    + destruct (eat "}" (skip_ws r3)); discriminate.
Qed.

(** [parse] fails only on a syntax error: the value parser reports one, or
    it leaves input behind that is not white space. *)
Lemma parse_none_is_syntax_error text :
  parse text = None ->
  parse_value (2 * String.length text + 2) text = SyntaxError
  \/ exists v rest,
       parse_value (2 * String.length text + 2) text = Ok v rest
       /\ skip_ws rest <> "".
Proof.
  unfold parse.
  pose proof (proj1 (parse_fuel (2 * String.length text + 2)) text) as Hf.
  destruct (parse_value (2 * String.length text + 2) text) as [v rest| |].
  - destruct (String.eqb (skip_ws rest) "") eqn:E; [discriminate|].
    intros _. right. exists v, rest. split; [reflexivity|].
    now apply String.eqb_neq.
  - now left.
  - exfalso. apply Hf; [lia | reflexivity].
Qed.
End Parser.

End JsonFacts.

(* ===================================================================== *)
(** * The state normaliser                                               *)
(* ===================================================================== *)

Section Normaliser.
Variable h : Host.

(** The item [newItem] builds when the [n]-th identifier is drawn. *)
Let blank (t : MapItemType) (n : nat) : MapItem :=
  {| id := uuid h n; type := t; name := ""; notes := ""; domains := emptyDomains |}.

Lemma newItem_eq t n : newItem h t n = (blank t n, S n).
Proof. reflexivity. Qed.

(** [normalizeItem] draws at most one identifier. *)
Lemma normalizeItem_counter it n :
  n <= snd (normalizeItem h it n) <= S n.
Proof.
  unfold normalizeItem, bind.
  destruct (prop it "id"); simpl; lia.
Qed.

Lemma mapM_cons {A B} (f : A -> Gen B) x rest n :
  mapM f (x :: rest) n =
    (fst (f x n) :: fst (mapM f rest (snd (f x n))),
     snd (mapM f rest (snd (f x n)))).
Proof.
  simpl. unfold bind, ret.
  destruct (f x n) as [y n1]. simpl.
  destruct (mapM f rest n1) as [ys n2]. reflexivity.
Qed.

Lemma mapM_length {A B} (f : A -> Gen B) xs :
  forall n, length (fst (mapM f xs n)) = length xs.
Proof.
  induction xs as [|x rest IH]; intro n.
  - reflexivity.
  - rewrite mapM_cons. simpl. now rewrite IH.
Qed.

(** Element [i] of the result is the callback applied to element [i] of
    the input, at the identifier position reached by then. *)
Lemma mapM_normalizeItem_nth xs :
  forall n i x, nth_error xs i = Some x ->
    exists k, n <= k <= n + i
      /\ nth_error (fst (mapM (normalizeItem h) xs n)) i
         = Some (fst (normalizeItem h x k)).
Proof.
  induction xs as [|y rest IH]; intros n i x Hx.
  - destruct i; discriminate.
  - rewrite mapM_cons. destruct i as [|i]; simpl in *.
    + injection Hx as ->. exists n. split; [lia | reflexivity].
    + destruct (IH (snd (normalizeItem h y n)) i x Hx) as [k [Hk Hnth]].
      exists k. split; [|exact Hnth].
      pose proof (normalizeItem_counter y n). lia.
Qed.

Lemma normalizeItems_array x rest n :
  normalizeItems h (VArr (x :: rest)) n = mapM (normalizeItem h) (x :: rest) n.
Proof. reflexivity. Qed.

Lemma normalizeItems_default v n :
  isArray v = false \/ v = VArr [] ->
  normalizeItems h v n = ([blank Module' n], S n).
Proof.
  intros [Hv | ->]; [|reflexivity].
  destruct v; try reflexivity; discriminate.
Qed.

Lemma normalizeItems_not_nil v n : fst (normalizeItems h v n) <> [].
Proof.
  destruct v as [| | | | |xs|]; try (simpl; discriminate).
  destruct xs as [|x rest]; [simpl; discriminate|].
  rewrite normalizeItems_array, mapM_cons. simpl. discriminate.
Qed.

(** C5. For every input value (an array or not, empty or not, whatever
    its elements are) [normalizeItems] returns a non-empty list; when the
    input is not an array or is the empty array, the result is exactly
    one freshly created item: a new identifier, type Module, blank name
    and notes, all six tags false. *)
Theorem normalizeItems_nonempty (v : value) (n : nat) :
  fst (normalizeItems h v n) <> []
  /\ (isArray v = false \/ v = VArr [] ->
      normalizeItems h v n =
        ([ {| id := uuid h n; type := Module'; name := ""; notes := "";
              domains := emptyDomains |} ], S n)).
Proof.
  split; [apply normalizeItems_not_nil | apply normalizeItems_default].
Qed.

(** C8. On a non-empty array [normalizeItems] returns a list of the same
    length, and its element at each index is the normalisation of the
    input element at that index: the callback applied to that element
    alone, with [k] the position in the identifier supply from which a
    fresh identifier is drawn if the element has none.  Nothing is
    dropped, added or reordered. *)
Theorem normalizeItems_pointwise (xs : list value) (n : nat) :
  xs <> [] ->
  length (fst (normalizeItems h (VArr xs) n)) = length xs
  /\ forall i x, nth_error xs i = Some x ->
       exists k, n <= k <= n + i
         /\ nth_error (fst (normalizeItems h (VArr xs) n)) i
            = Some (fst (normalizeItem h x k)).
Proof.
  intros Hne. destruct xs as [|x rest]; [contradiction|].
  rewrite normalizeItems_array. split.
  - apply mapM_length.
  - apply mapM_normalizeItem_nth.
Qed.

(** All of a normalised item but its identifier is decided by the input
    element, whatever the state of the identifier supply. *)
Lemma normalizeItem_fields it k k' :
  let a := fst (normalizeItem h it k) in
  let b := fst (normalizeItem h it k') in
  type a = type b /\ name a = name b /\ notes a = notes b
  /\ domains a = domains b
  /\ (id a = id b \/ (typeof (prop it "id") <> "string"
                      /\ id a = uuid h k /\ id b = uuid h k')).
Proof.
  unfold normalizeItem, bind.
  destruct (prop it "id"); simpl; repeat split; auto;
    right; repeat split; auto; discriminate.
Qed.

End Normaliser.

Lemma normalizeItems_nonempty_witness :
  (isArray (VStr "none") = false \/ VStr "none" = VArr [])
  /\ normalizeItems Samples.host (VStr "none") 0 =
       ([ {| id := "uuid-0"; type := Module'; name := ""; notes := "";
             domains := emptyDomains |} ], 1).
Proof.
  split.
  - left. reflexivity.
  - apply (proj2 (normalizeItems_nonempty Samples.host (VStr "none") 0)).
    left. reflexivity.
Defined.

Lemma normalizeItems_pointwise_witness :
  [VObj []; VNum Samples.one] <> []
  /\ length (fst (normalizeItems Samples.host (VArr [VObj []; VNum Samples.one]) 0)) = 2
  /\ forall i x, nth_error [VObj []; VNum Samples.one] i = Some x ->
       exists k, 0 <= k <= 0 + i
         /\ nth_error (fst (normalizeItems Samples.host (VArr [VObj []; VNum Samples.one]) 0)) i
            = Some (fst (normalizeItem Samples.host x k)).
Proof.
  split.
  - discriminate.
  - apply (normalizeItems_pointwise Samples.host [VObj []; VNum Samples.one] 0).
    discriminate.
Defined.

(* ===================================================================== *)
(** * Fresh items, the default state and the persistence adapter         *)
(* ===================================================================== *)

(** The programme and the single item of the full-default state, when the
    [n]-th identifier is the next to be drawn. *)
Lemma loadState_empty_store h n :
  loadState h None n =
    ({| programme := defaultProgrammeDetails h;
        items := [fst (newItem h Module' n)] |}, S n).
Proof. reflexivity. Qed.

(** C10. A freshly created item has the requested type, an empty name,
    empty notes, and exactly the six domain tags, all false.  Hence the
    full-default state, whose only item is a fresh Module, has a total
    domain-tag count of zero, [hasAnyTag] is false, and the two export
    buttons are disabled. *)
Theorem newItem_blank_and_default_state_untagged (h : Host) (t : MapItemType) (n : nat) :
  let it := fst (newItem h t n) in
  let st := fst (loadState h None n) in
  (type it = t /\ name it = "" /\ notes it = ""
   /\ keys (domains it) = Spec.canonical_keys
   /\ Forall (fun k => lookup (domains it) k = Some (VBool false)) Spec.canonical_keys
   /\ Spec.six_booleans (domains it) = true)
  /\ (items st = [fst (newItem h Module' n)]
      /\ totalDomainTags (coverage (items st)) = Int 0
      /\ hasAnyTag (coverage (items st)) = false
      /\ exportDisabled st = true).
Proof.
  cbv zeta. rewrite loadState_empty_store, newItem_eq.
  cbn [fst items type name notes domains].
  split.
  - repeat split; try reflexivity.
    repeat (constructor; try reflexivity).
  - unfold exportDisabled, hasAnyTag. cbn [items].
    repeat split; reflexivity.
Qed.

(** C6. When the store has no entry, or its entry does not parse as JSON,
    [loadState] returns the full-default state: a programme whose text
    fields are blank, whose mapping date is today's date and whose version
    is "v0.1", and one fresh Module item.  The function is total: the
    exception [JSON.parse] throws is the [None] handled here. *)
Theorem loadState_defaults (h : Host) (raw : option string) (n : nat) :
  raw = None \/ (exists text, raw = Some text /\ Json.parse text = None) ->
  loadState h raw n =
    ({| programme :=
          {| programmeTitle := ""; awardLevel := ""; department := "";
             institution := ""; mappingDate := todayISODate h; version := "v0.1" |};
        items :=
          [ {| id := uuid h n; type := Module'; name := ""; notes := "";
               domains := emptyDomains |} ] |}, S n).
Proof.
  intros [-> | [text [-> Hparse]]]; [reflexivity|].
  unfold loadState. rewrite Hparse.
  destruct text; reflexivity.
Qed.

Lemma not_json_does_not_parse : Json.parse "not json" = None.
Proof. reflexivity. Qed.

(** The literal text [not json] in the store, on 1 March 2024. *)
Lemma loadState_defaults_witness :
  (Some "not json" = None
   \/ exists text, Some "not json" = Some text /\ Json.parse text = None)
  /\ loadState Samples.host (Some "not json") 0 =
       ({| programme :=
             {| programmeTitle := ""; awardLevel := ""; department := "";
                institution := ""; mappingDate := "2024-03-01"; version := "v0.1" |};
           items :=
             [ {| id := "uuid-0"; type := Module'; name := ""; notes := "";
                  domains := emptyDomains |} ] |}, 1).
Proof.
  assert (H : Some "not json" = None
              \/ exists text, Some "not json" = Some text /\ Json.parse text = None).
  { right. exists "not json". split; reflexivity. }
  split; [exact H|].
  exact (loadState_defaults Samples.host (Some "not json") 0 H).
Defined.

(* ===================================================================== *)
(** * Objects                                                            *)
(* ===================================================================== *)

Section Objects.
Context {V : Type}.
Implicit Types (o : list (string * V)) (k : string) (v : V).

Lemma lookup_set_same o k v : lookup (set o k v) k = Some v.
Proof.
  induction o as [|[k' v'] rest IH]; simpl.
  - now rewrite String.eqb_refl.
  - destruct (String.eqb k' k) eqn:E; simpl; rewrite E; auto.
Qed.

Lemma lookup_set_other o k k' v :
  k <> k' -> lookup (set o k v) k' = lookup o k'.
Proof.
  intros Hne. induction o as [|[k0 v0] rest IH]; simpl.
  - apply String.eqb_neq in Hne. now rewrite Hne.
  - destruct (String.eqb k0 k) eqn:E; simpl.
    + apply String.eqb_eq in E. subst k0.
      apply String.eqb_neq in Hne. now rewrite Hne.
    + now rewrite IH.
Qed.

(** Assigning to a property that exists leaves the keys as they are. *)
Lemma keys_set_present o k v :
  lookup o k <> None -> keys (set o k v) = keys o.
Proof.
  induction o as [|[k0 v0] rest IH]; simpl; intros Hk.
  - contradiction.
  - destruct (String.eqb k0 k); simpl; [reflexivity|].
    f_equal. now apply IH.
Qed.

Lemma lookup_set_some o k k' v :
  lookup o k' <> None -> lookup (set o k v) k' <> None.
Proof.
  intros Hk. destruct (string_dec k k') as [->|Hne].
  - rewrite lookup_set_same. discriminate.
  - now rewrite lookup_set_other.
Qed.

Lemma lookup_fold_set_some (b : list (string * V)) :
  forall o k, lookup o k <> None ->
    lookup (fold_left (fun o kv => set o (fst kv) (snd kv)) b o) k <> None.
Proof.
  induction b as [|[k0 v0] rest IH]; intros o k Hk; simpl; auto.
  apply IH. now apply lookup_set_some.
Qed.

Lemma lookup_fold_set_absent (b : list (string * V)) :
  forall o k, lookup b k = None ->
    lookup (fold_left (fun o kv => set o (fst kv) (snd kv)) b o) k = lookup o k.
Proof.
  induction b as [|[k0 v0] rest IH]; intros o k Hk; simpl in *; auto.
  destruct (String.eqb k0 k) eqn:E; [discriminate|].
  rewrite IH by assumption.
  apply lookup_set_other. now apply String.eqb_neq.
Qed.
End Objects.

(** Whatever the input element is, the normalised item has each of the six
    canonical tags, and a tag the element does not carry is [false]. *)
Lemma normalizeItem_has_six_tags h it n :
  Forall (fun k =>
            lookup (domains (fst (normalizeItem h it n))) k <> None
            /\ (lookup (Spec.source_tags it) k = None ->
                lookup (domains (fst (normalizeItem h it n))) k = Some (VBool false)))
         Spec.canonical_keys.
Proof.
  assert (Hd : domains (fst (normalizeItem h it n))
               = spread emptyDomains (Spec.source_tags it)).
  { unfold normalizeItem, bind. destruct (prop it "id"); reflexivity. }
  rewrite Hd. unfold spread.
  repeat constructor;
    try (apply lookup_fold_set_some; simpl; discriminate);
    intro Habs; rewrite lookup_fold_set_absent by exact Habs; reflexivity.
Qed.

Lemma foreign_tags_file_parses :
  Json.parse Samples.foreign_tags_file
  = Some (VArr [VObj [("domains",
                       VObj [("awareness", VStr "yes"); ("extra", VNum Samples.one)])]]).
Proof. vm_compute. reflexivity. Qed.

(** C1, at the file [[{"domains":{"awareness":"yes","extra":1}}]]: the
    normalised item carries the string "yes" under [awareness] and a
    seventh key [extra] mapped to a number, so its tags are not the six
    canonical keys mapped to booleans. *)
Theorem normalizeItems_keeps_foreign_tags (h : Host) (n : nat) :
  exists v it,
    Json.parse Samples.foreign_tags_file = Some v
    /\ fst (normalizeItems h v n) = [it]
    /\ lookup (domains it) "awareness" = Some (VStr "yes")
    /\ lookup (domains it) "extra" = Some (VNum Samples.one)
    /\ keys (domains it) = (Spec.canonical_keys ++ ["extra"])%list
    /\ Spec.six_booleans (domains it) = false.
Proof.
  eexists. eexists. split; [apply foreign_tags_file_parses|].
  split; [reflexivity|]. repeat split; reflexivity.
Qed.

(* ===================================================================== *)
(** * Import                                                             *)
(* ===================================================================== *)

Lemma empty_items_file_parses :
  Json.parse Samples.empty_items_file
  = Some (VObj [("programme", VObj [("programmeTitle", VStr "X")]);
                ("items", VArr [])]).
Proof. vm_compute. reflexivity. Qed.

(** The guard after normalisation never fires: no file makes
    [handleImportFile] show the not-a-mapping alert. *)
Lemma import_never_reports_unrecognised h ok text st n :
  ~ In (Alert NOT_A_MAPPING) (snd (fst (handleImportFile h ok text st n))).
Proof.
  unfold handleImportFile. destruct (Json.parse text) as [parsed|].
  - unfold bind.
    destruct (normalizeItems h (prop parsed "items") n) as [its n'] eqn:E.
    pose proof (normalizeItems_not_nil h (prop parsed "items") n) as Hne.
    rewrite E in Hne. simpl in Hne.
    destruct its as [|i its]; [contradiction|]. simpl.
    destruct ok; simpl; intros [H|[]]; discriminate.
  - simpl. intros [H|[]]. discriminate.
Qed.

(** C2, at the file [{"programme":{"programmeTitle":"X"},"items":[]}]: the
    empty item list is normalised to one fresh Module item, so the
    not-a-mapping alert is not shown; the user is asked to confirm, and on
    confirmation the state is replaced by programme title "X" (the other
    fields at their defaults) with that one item.  The state is kept only
    if the user declines. *)
Theorem import_of_empty_items_replaces_state (h : Host) (st : State) (n : nat) :
  handleImportFile h true Samples.empty_items_file st n =
    (({| programme :=
           {| programmeTitle := "X"; awardLevel := ""; department := "";
              institution := ""; mappingDate := todayISODate h; version := "v0.1" |};
         items :=
           [ {| id := uuid h n; type := Module'; name := ""; notes := "";
                domains := emptyDomains |} ] |},
      [Confirm IMPORT_PROMPT]), S n)
  /\ handleImportFile h false Samples.empty_items_file st n =
       ((st, [Confirm IMPORT_PROMPT]), S n).
Proof.
  unfold handleImportFile. rewrite empty_items_file_parses.
  split; reflexivity.
Qed.

(* ===================================================================== *)
(** * Coverage                                                           *)
(* ===================================================================== *)

Section Coverage.

Lemma mem_canonical k :
  Spec.mem k Spec.canonical_keys = true ->
  k = "awareness" \/ k = "coagency" \/ k = "practice"
  \/ k = "ethics" \/ k = "governance" \/ k = "reflection".
Proof.
  unfold Spec.mem. simpl. rewrite !orb_true_iff, !String.eqb_eq.
  intuition (try discriminate).
Qed.

Lemma total_six_counts a b c d e f :
  totalDomainTags (Spec.six_counts a b c d e f) = Int (a + b + c + d + e + f).
Proof. reflexivity. Qed.

(** Incrementing a canonical key keeps the six counters and adds one to
    their sum. *)
Lemma bump_six_counts k a b c d e f :
  Spec.mem k Spec.canonical_keys = true ->
  exists a' b' c' d' e' f',
    bump (Spec.six_counts a b c d e f) k = Spec.six_counts a' b' c' d' e' f'
    /\ a' + b' + c' + d' + e' + f' = S (a + b + c + d + e + f).
Proof.
  intros Hk.
  destruct (mem_canonical k Hk) as [->|[->|[->|[->|[->| ->]]]]].
  - exists (a + 1), b, c, d, e, f. split; [reflexivity | lia].
  - exists a, (b + 1), c, d, e, f. split; [reflexivity | lia].
  - exists a, b, (c + 1), d, e, f. split; [reflexivity | lia].
  - exists a, b, c, (d + 1), e, f. split; [reflexivity | lia].
  - exists a, b, c, d, (e + 1), f. split; [reflexivity | lia].
  - exists a, b, c, d, e, (f + 1). split; [reflexivity | lia].
Qed.

(** The inner loop over the keys of one item. *)
Lemma count_item_keys (o : object) (ks : list string) :
  forallb (fun k => Spec.mem k Spec.canonical_keys) ks = true ->
  forall a b c d e f,
  exists a' b' c' d' e' f',
    fold_left (fun counts k => if truthy (tag o k) then bump counts k else counts)
              ks (Spec.six_counts a b c d e f)
    = Spec.six_counts a' b' c' d' e' f'
    /\ a' + b' + c' + d' + e' + f'
       = a + b + c + d + e + f + length (filter (fun k => truthy (tag o k)) ks).
Proof.
  induction ks as [|k rest IH]; simpl; intros Hks a b c d e f.
  - exists a, b, c, d, e, f. split; [reflexivity | lia].
  - apply andb_true_iff in Hks. destruct Hks as [Hk Hrest].
    destruct (truthy (tag o k)).
    + destruct (bump_six_counts k a b c d e f Hk)
        as (a1 & b1 & c1 & d1 & e1 & f1 & -> & Hsum).
      destruct (IH Hrest a1 b1 c1 d1 e1 f1)
        as (a2 & b2 & c2 & d2 & e2 & f2 & -> & Hsum2).
      exists a2, b2, c2, d2, e2, f2. split; [reflexivity | simpl; lia].
    + destruct (IH Hrest a b c d e f)
        as (a2 & b2 & c2 & d2 & e2 & f2 & -> & Hsum2).
      exists a2, b2, c2, d2, e2, f2. split; [reflexivity | lia].
Qed.

Lemma mem_false_neq k k' ks :
  Spec.mem k ks = false -> In k' ks -> k <> k'.
Proof.
  intros Hm Hin ->.
  assert (Spec.mem k' ks = true).
  { unfold Spec.mem. apply existsb_exists. exists k'. split; auto.
    apply String.eqb_refl. }
  congruence.
Qed.

(** With each key once and every value a boolean, the keys whose value
    is truthy are as many as the entries that are [true]. *)
Lemma truthy_keys_are_true_entries (o : object) :
  Spec.nodupb (keys o) = true ->
  forallb (fun kv => Spec.is_boolean (snd kv)) o = true ->
  length (filter (fun k => truthy (tag o k)) (keys o))
  = length (filter (fun kv => Spec.is_true (snd kv)) o).
Proof.
  induction o as [|[k v] rest IH]; simpl; intros Hnd Hb; [reflexivity|].
  apply andb_true_iff in Hnd. destruct Hnd as [Hk Hnd].
  apply andb_true_iff in Hb. destruct Hb as [Hv Hb].
  apply negb_true_iff in Hk.
  assert (Hrest : filter (fun k0 => truthy (tag ((k, v) :: rest) k0)) (keys rest)
                  = filter (fun k0 => truthy (tag rest k0)) (keys rest)).
  { apply filter_ext_in. intros k' Hin. unfold tag. simpl.
    pose proof (mem_false_neq k k' (keys rest) Hk Hin) as Hne.
    apply String.eqb_neq in Hne. now rewrite Hne. }
  unfold tag at 1. simpl. rewrite String.eqb_refl, Hrest.
  destruct v as [| |[|]| | | |]; try discriminate; simpl; now rewrite IH.
Qed.

Lemma count_items (items : list MapItem) :
  Forall (fun it => Spec.six_booleans (domains it) = true) items ->
  forall a b c d e f,
  exists a' b' c' d' e' f',
    fold_left
      (fun counts item =>
         fold_left
           (fun counts k => if truthy (tag (domains item) k) then bump counts k else counts)
           (keys (domains item)) counts)
      items (Spec.six_counts a b c d e f)
    = Spec.six_counts a' b' c' d' e' f'
    /\ a' + b' + c' + d' + e' + f'
       = a + b + c + d + e + f + Spec.total_true_entries items.
Proof.
  induction 1 as [|it rest Hit Hrest IH]; intros a b c d e f.
  - exists a, b, c, d, e, f. split; [reflexivity | unfold Spec.total_true_entries; simpl; lia].
  - unfold Spec.six_booleans in Hit.
    rewrite !andb_true_iff in Hit. destruct Hit as [[[Hcan _] Hnd] Hb].
    destruct (count_item_keys (domains it) (keys (domains it)) Hcan a b c d e f)
      as (a1 & b1 & c1 & d1 & e1 & f1 & E1 & Hsum1).
    destruct (IH a1 b1 c1 d1 e1 f1)
      as (a2 & b2 & c2 & d2 & e2 & f2 & E2 & Hsum2).
    exists a2, b2, c2, d2, e2, f2. split.
    + simpl. rewrite E1. exact E2.
    + rewrite Hsum2, Hsum1, (truthy_keys_are_true_entries _ Hnd Hb).
      unfold Spec.total_true_entries, Spec.true_entries. simpl. lia.
Qed.

(** C4. For items that satisfy the domain-tags invariant (exactly the
    six canonical keys, each a boolean), the coverage object has exactly
    the six domain keys, each holding a count (a natural number, never
    [NaN]), and the six counts add up to the number of [true] tag entries
    over all items. *)
Theorem coverage_sums_true_tags (items : list MapItem) :
  Forall (fun it => Spec.six_booleans (domains it) = true) items ->
  keys (coverage items) = Spec.canonical_keys
  /\ Forall (fun d => exists n, cov (coverage items) d = Int n) DOMAINS
  /\ totalDomainTags (coverage items) = Int (Spec.total_true_entries items).
Proof.
  intros Hinv.
  destruct (count_items items Hinv 0 0 0 0 0 0)
    as (a & b & c & d & e & f & E & Hsum).
  change (coverage items = Spec.six_counts a b c d e f) in E.
  rewrite E. split; [reflexivity|]. split.
  - repeat constructor; eexists; reflexivity.
  - rewrite total_six_counts. f_equal. lia.
Qed.

End Coverage.

Lemma coverage_sums_true_tags_witness :
  Forall (fun it => Spec.six_booleans (domains it) = true)
         [Samples.workshop; Samples.foundations]
  /\ keys (coverage [Samples.workshop; Samples.foundations]) = Spec.canonical_keys
  /\ Forall (fun d => exists n, cov (coverage [Samples.workshop; Samples.foundations]) d = Int n)
            DOMAINS
  /\ totalDomainTags (coverage [Samples.workshop; Samples.foundations])
     = Int (Spec.total_true_entries [Samples.workshop; Samples.foundations]).
Proof.
  assert (H : Forall (fun it => Spec.six_booleans (domains it) = true)
                     [Samples.workshop; Samples.foundations]).
  { repeat constructor. }
  split; [exact H|].
  exact (coverage_sums_true_tags [Samples.workshop; Samples.foundations] H).
Defined.

Example coverage_of_samples :
  coverage [Samples.workshop; Samples.foundations] = Spec.six_counts 2 0 0 1 0 0
  /\ Spec.total_true_entries [Samples.workshop; Samples.foundations] = 3.
Proof. split; reflexivity. Qed.

(* ===================================================================== *)
(** * Observations: the most and the least represented domain            *)
(* ===================================================================== *)

Section StableSort.
Context {A : Type} (cmp : A -> A -> option Z) (f : A -> nat).

Lemma in_insert a x l : In x (insert cmp a l) <-> x = a \/ In x l.
Proof.
  induction l as [|b rest IH]; simpl.
  - intuition.
  - destruct (after cmp a b); simpl; rewrite ?IH; intuition.
Qed.

Lemma in_sort x l : In x (sort cmp l) <-> In x l.
Proof.
  induction l as [|a rest IH]; simpl; [tauto|].
  rewrite in_insert, IH. intuition.
Qed.

Lemma insert_not_nil a l : insert cmp a l <> [].
Proof. destruct l as [|b rest]; simpl; [|destruct (after cmp a b)]; discriminate. Qed.

Lemma sort_not_nil l : l <> [] -> sort cmp l <> [].
Proof. destruct l; [contradiction|]. intros _. apply insert_not_nil. Qed.

Lemma last_error_cons (a : A) l : l <> [] -> Spec.last_error (a :: l) = Spec.last_error l.
Proof. destruct l; [contradiction | reflexivity]. Qed.

Lemma nth_error_last (l : list A) :
  nth_error l (length l - 1) = Spec.last_error l.
Proof.
  induction l as [|a rest IH]; [reflexivity|].
  destruct rest as [|b rest]; [reflexivity|].
  rewrite last_error_cons by discriminate. rewrite <- IH.
  simpl. now rewrite Nat.sub_0_r.
Qed.

(** An element that goes after everything ends up last. *)
Lemma insert_last_new a l :
  Forall (fun b => after cmp a b = true) l ->
  Spec.last_error (insert cmp a l) = Some a.
Proof.
  induction 1 as [|b rest Hb Hrest IH]; simpl; [reflexivity|].
  rewrite Hb. rewrite last_error_cons by apply insert_not_nil. exact IH.
Qed.

(** Otherwise the last element stays. *)
Lemma insert_last_old a l :
  Exists (fun b => after cmp a b = false) l ->
  Spec.last_error (insert cmp a l) = Spec.last_error l.
Proof.
  induction l as [|b rest IH]; intros Hex; [inversion Hex|].
  simpl insert. destruct (after cmp a b) eqn:E.
  - assert (Hrest : Exists (fun b => after cmp a b = false) rest).
    { inversion Hex; subst; [congruence | assumption]. }
    assert (rest <> []) by (intros ->; inversion Hrest).
    rewrite last_error_cons by apply insert_not_nil.
    rewrite last_error_cons by assumption. now apply IH.
  - reflexivity.
Qed.

(** [sort] is the stable sort by decreasing key: its result is ordered, and
    the elements of any one key are in their original order.  These two
    facts determine the result, so every stable sorting algorithm returns
    it. *)
Lemma insert_sorted a l :
  (forall b, In b l -> after cmp a b = (f a <? f b)) ->
  StronglySorted (fun x y => f y <= f x) l ->
  StronglySorted (fun x y => f y <= f x) (insert cmp a l).
Proof.
  intros Hcmp Hs. induction Hs as [|b rest Hrest IH Hb]; simpl.
  - repeat constructor.
  - rewrite (Hcmp b) by now left.
    rewrite Forall_forall in Hb.
    destruct (Nat.ltb_spec (f a) (f b)) as [Hlt|Hge].
    + constructor.
      * apply IH. intros y Hy. apply Hcmp. now right.
      * apply Forall_forall. intros y Hy. apply in_insert in Hy.
        destruct Hy as [->|Hy]; [lia | now apply Hb].
    + constructor; [now constructor; [|apply Forall_forall]|].
      constructor; [exact Hge|].
      apply Forall_forall. intros y Hy. specialize (Hb y Hy). lia.
Qed.

Lemma sort_sorted l :
  Spec.by_decreasing cmp f l -> StronglySorted (fun x y => f y <= f x) (sort cmp l).
Proof.
  induction l as [|a rest IH]; intros Hcmp; simpl; [constructor|].
  apply insert_sorted.
  - intros b Hb. apply Hcmp; [now left | right; now apply (proj1 (in_sort b rest))].
  - apply IH. intros x y Hx Hy. apply Hcmp; now right.
Qed.

Lemma insert_stable n a l :
  (forall b, In b l -> after cmp a b = (f a <? f b)) ->
  filter (fun x => f x =? n) (insert cmp a l)
  = if f a =? n then a :: filter (fun x => f x =? n) l
    else filter (fun x => f x =? n) l.
Proof.
  induction l as [|b rest IH]; intros Hcmp; simpl; [reflexivity|].
  rewrite (Hcmp b) by now left.
  destruct (Nat.ltb_spec (f a) (f b)) as [Hlt|Hge]; simpl.
  - rewrite IH by (intros y Hy; apply Hcmp; now right).
    destruct (Nat.eqb_spec (f a) n) as [Ea|Ea];
      destruct (Nat.eqb_spec (f b) n) as [Eb|Eb]; try reflexivity; lia.
  - reflexivity.
Qed.

Lemma sort_stable n l :
  Spec.by_decreasing cmp f l ->
  filter (fun x => f x =? n) (sort cmp l) = filter (fun x => f x =? n) l.
Proof.
  induction l as [|a rest IH]; intros Hcmp; simpl; [reflexivity|].
  rewrite insert_stable.
  - rewrite IH by (intros x y Hx Hy; apply Hcmp; now right). reflexivity.
  - intros b Hb. apply Hcmp; [now left | right; now apply (proj1 (in_sort b rest))].
Qed.

Lemma first_of_max_in l x : Spec.first_of_max f l x -> In x l.
Proof. intros (pre & post & -> & _). apply in_elt. Qed.

Lemma last_of_min_in l x : Spec.last_of_min f l x -> In x l.
Proof. intros (pre & post & -> & _). apply in_elt. Qed.

Lemma first_of_max_bound l x y : Spec.first_of_max f l x -> In y l -> f y <= f x.
Proof.
  intros (pre & post & -> & Hpre & Hpost) Hy.
  rewrite Forall_forall in Hpre, Hpost.
  apply in_app_or in Hy. destruct Hy as [Hy|[->|Hy]]; auto.
  apply Nat.lt_le_incl. auto.
Qed.

Lemma last_of_min_bound l x y : Spec.last_of_min f l x -> In y l -> f x <= f y.
Proof.
  intros (pre & post & -> & Hpre & Hpost) Hy.
  rewrite Forall_forall in Hpre, Hpost.
  apply in_app_or in Hy. destruct Hy as [Hy|[->|Hy]]; auto.
  apply Nat.lt_le_incl. auto.
Qed.

Lemma by_decreasing_tail a l : Spec.by_decreasing cmp f (a :: l) -> Spec.by_decreasing cmp f l.
Proof. intros H x y Hx Hy. apply H; now right. Qed.

(** The head of the sorted list is the first element of greatest key. *)
Lemma sort_head l :
  Spec.by_decreasing cmp f l -> l <> [] ->
  exists m, nth_error (sort cmp l) 0 = Some m /\ Spec.first_of_max f l m.
Proof.
  induction l as [|a rest IH]; intros Hcmp Hne; [contradiction|].
  destruct rest as [|b rest'].
  - exists a. split; [reflexivity|].
    exists [], []. repeat split; constructor.
  - destruct IH as (m & Hm & Hmax);
      [now apply by_decreasing_tail in Hcmp | discriminate |].
    set (rest := b :: rest') in *.
    change (sort cmp (a :: rest)) with (insert cmp a (sort cmp rest)).
    destruct (sort cmp rest) as [|m' tl] eqn:Es; [discriminate|].
    simpl in Hm. injection Hm as ->.
    pose proof (first_of_max_in _ _ Hmax) as Hin.
    simpl insert. rewrite (Hcmp a m) by (first [left; reflexivity | right; assumption]).
    destruct (f a <? f m) eqn:E.
    + apply Nat.ltb_lt in E. exists m. split; [reflexivity|].
      destruct Hmax as (pre & post & Hl & Hpre & Hpost).
      exists (a :: pre), post. rewrite Hl. repeat split; auto.
    + apply Nat.ltb_ge in E. exists a. split; [reflexivity|].
      exists [], rest. repeat split; [constructor|].
      apply Forall_forall. intros y Hy.
      pose proof (first_of_max_bound _ _ y Hmax Hy). lia.
Qed.

(** The last element of the sorted list is the last element of least
    key. *)
Lemma sort_last l :
  Spec.by_decreasing cmp f l -> l <> [] ->
  exists x, nth_error (sort cmp l) (length (sort cmp l) - 1) = Some x
            /\ Spec.last_of_min f l x.
Proof.
  intros Hcmp Hne. rewrite nth_error_last. revert Hcmp Hne.
  induction l as [|a rest IH]; intros Hcmp Hne; [contradiction|].
  destruct rest as [|b rest'].
  - exists a. split; [reflexivity|].
    exists [], []. repeat split; constructor.
  - destruct IH as (x & Hx & Hmin);
      [now apply by_decreasing_tail in Hcmp | discriminate |].
    set (rest := b :: rest') in *.
    change (sort cmp (a :: rest)) with (insert cmp a (sort cmp rest)).
    pose proof (last_of_min_in _ _ Hmin) as Hin.
    destruct (f a <? f x) eqn:E.
    + apply Nat.ltb_lt in E. exists a. split.
      * apply insert_last_new. apply Forall_forall. intros y Hy.
        apply (proj1 (in_sort y rest)) in Hy.
        rewrite (Hcmp a y) by (first [left; reflexivity | right; assumption]).
        apply Nat.ltb_lt.
        pose proof (last_of_min_bound _ _ y Hmin Hy). lia.
      * exists [], rest. repeat split; [constructor|].
        apply Forall_forall. intros y Hy.
        pose proof (last_of_min_bound _ _ y Hmin Hy). lia.
    + exists x. split.
      * rewrite insert_last_old; [exact Hx|].
        apply Exists_exists. exists x. split; [now apply (proj2 (in_sort x rest))|].
        rewrite (Hcmp a x) by (first [left; reflexivity | right; assumption]). exact E.
      * apply Nat.ltb_ge in E.
        destruct Hmin as (pre & post & Hl & Hpre & Hpost).
        exists (a :: pre), post. rewrite Hl. repeat split; auto.
Qed.
End StableSort.

Section Observations.

(** A positive total means none of the six counts is [NaN]. *)
Lemma positive_total_counts c :
  positive (totalDomainTags c) = true ->
  Forall (fun d => cov c d = Int (Spec.tagged c d)) DOMAINS.
Proof.
  unfold totalDomainTags, Spec.tagged. simpl fold_left. intros Hpos.
  repeat constructor;
    repeat match type of Hpos with
           | context [cov c ?d] => destruct (cov c d); simpl in Hpos
           end;
    try reflexivity; try discriminate Hpos.
Qed.

Lemma comparator_by_decreasing c :
  Forall (fun d => cov c d = Int (Spec.tagged c d)) DOMAINS ->
  Spec.by_decreasing (fun a b => num_sub (cov c b) (cov c a)) (Spec.tagged c) DOMAINS.
Proof.
  intros Hint a b Ha Hb. rewrite Forall_forall in Hint.
  unfold after. rewrite (Hint a Ha), (Hint b Hb). simpl.
  destruct (Nat.ltb_spec (Spec.tagged c a) (Spec.tagged c b));
    destruct (Z.ltb_spec 0 (Z.of_nat (Spec.tagged c b) - Z.of_nat (Spec.tagged c a)));
    auto; lia.
Qed.

Lemma DOMAINS_not_nil : DOMAINS <> [].
Proof. discriminate. Qed.

(** The picks, on any counter object with a positive total. *)
Lemma picks_by_registry_order c :
  positive (totalDomainTags c) = true ->
  exists m l,
    most c = Some m /\ least c = Some l
    /\ Spec.first_of_max (Spec.tagged c) DOMAINS m
    /\ Spec.last_of_min (Spec.tagged c) DOMAINS l.
Proof.
  intros Hpos.
  pose proof (comparator_by_decreasing c (positive_total_counts c Hpos)) as Hcmp.
  destruct (sort_head _ _ DOMAINS Hcmp DOMAINS_not_nil) as (m & Hm & Hmax).
  destruct (sort_last _ _ DOMAINS Hcmp DOMAINS_not_nil) as (l & Hl & Hmin).
  exists m, l. repeat split; assumption.
Qed.

Lemma observations_tagged c totalItems m l :
  positive (totalDomainTags c) = true ->
  most c = Some m -> least c = Some l ->
  nth_error (observations c totalItems) 1 = Some (mostLine c m)
  /\ nth_error (observations c totalItems) 2 = Some (leastLine c l).
Proof.
  intros Hpos Hm Hl. unfold observations. rewrite Hpos, Hm, Hl.
  split; reflexivity.
Qed.

(** C3, as the code has it.  For every list of items whose total tagged
    count is positive, the sentence on the most represented domain names
    the first domain in registry order among those of greatest count
    (every domain before it has a smaller count, none after it has a
    greater one), and the sentence on the least represented domain names
    the last domain in registry order among those of least count (every
    domain after it has a greater count, none before it has a smaller
    one).  Both picks are functions of the items. *)
Theorem most_is_first_of_max_least_is_last_of_min (items : list MapItem) :
  let c := coverage items in
  positive (totalDomainTags c) = true ->
  exists m l,
    most c = Some m /\ least c = Some l
    /\ Spec.first_of_max (Spec.tagged c) DOMAINS m
    /\ Spec.last_of_min (Spec.tagged c) DOMAINS l
    /\ nth_error (observations c (length items)) 1 = Some (mostLine c m)
    /\ nth_error (observations c (length items)) 2 = Some (leastLine c l).
Proof.
  intros c Hpos.
  destruct (picks_by_registry_order c Hpos) as (m & l & Hm & Hl & Hmax & Hmin).
  exists m, l.
  destruct (observations_tagged c (length items) m l Hpos Hm Hl) as [H1 H2].
  repeat split; assumption.
Qed.

End Observations.

Lemma most_is_first_of_max_least_is_last_of_min_witness :
  let c := coverage [Samples.workshop; Samples.foundations] in
  positive (totalDomainTags c) = true
  /\ exists m l,
      most c = Some m /\ least c = Some l
      /\ Spec.first_of_max (Spec.tagged c) DOMAINS m
      /\ Spec.last_of_min (Spec.tagged c) DOMAINS l
      /\ nth_error (observations c 2) 1 = Some (mostLine c m)
      /\ nth_error (observations c 2) 2 = Some (leastLine c l).
Proof.
  split.
  - reflexivity.
  - apply (most_is_first_of_max_least_is_last_of_min
             [Samples.workshop; Samples.foundations]).
    reflexivity.
Defined.

(** With one Module tagged for awareness only, five domains tie on the
    least count 0.  The first of them in registry order is Co-Agency; the
    sentence names Renewal, the last. *)
Example least_of_one_awareness_item :
  nth_error (observations (coverage [Samples.foundations]) 1) 2
  = Some "The least represented domain is **Reflection, Learning & Renewal** (0 items).".
Proof. reflexivity. Qed.

(** C3 as stated fails: the least represented domain is not the first
    domain in registry order among those of least count. *)
Lemma least_is_not_first_of_min :
  let c := coverage [Samples.foundations] in
  positive (totalDomainTags c) = true
  /\ ~ (exists l, least c = Some l
                  /\ Spec.first_of_min (Spec.tagged c) DOMAINS l).
Proof.
  split; [reflexivity|].
  intros (l & Hl & pre & post & Hsplit & Hpre & Hpost).
  vm_compute in Hl. injection Hl as <-.
  repeat (destruct pre as [|? pre];
          [ try discriminate Hsplit
          | injection Hsplit as <- Hsplit ]).
  - inversion Hpre as [|? ? _ Hpre1]; subst.
    inversion Hpre1 as [|? ? Habs _]; subst.
    vm_compute in Habs. lia.
  - destruct pre; discriminate Hsplit.
Qed.

(* ===================================================================== *)
(** * Slugs and export file names                                        *)
(* ===================================================================== *)

Section Slug.

Lemma alnum_not_hyphen c : is_alnum c = true -> Ascii.eqb c hyphen = false.
Proof.
  intros H. destruct (Ascii.eqb c hyphen) eqn:E; [|reflexivity].
  apply Ascii.eqb_eq in E. subst c. discriminate H.
Qed.

(** The scan that emits the hyphen at the start of a run and the
    definition that emits it at the end of the run agree; inside a run,
    the scan has its hyphen behind it. *)
Lemma replace_runs_collapse s :
  replace_runs false s = Spec.collapse_runs s
  /\ match s with
     | String c _ =>
         if is_alnum c then replace_runs true s = Spec.collapse_runs s
         else String hyphen (replace_runs true s) = Spec.collapse_runs s
     | EmptyString => True
     end.
Proof.
  induction s as [|c rest [IH1 IH2]]; [split; reflexivity|].
  simpl. destruct (is_alnum c) eqn:Ec.
  - rewrite IH1. split; reflexivity.
  - destruct rest as [|c' rest'].
    + split; reflexivity.
    + destruct (is_alnum c') eqn:Ec'.
      * rewrite IH2. split; reflexivity.
      * rewrite <- IH2. split; reflexivity.
Qed.

Lemma replace_runs_single b s :
  Spec.single_hyphens (replace_runs b s) = true
  /\ (b = true -> Spec.starts_with_hyphen (replace_runs b s) = false).
Proof.
  revert b. induction s as [|c rest IH]; intro b; [split; reflexivity|].
  simpl. destruct (is_alnum c) eqn:Ec.
  - destruct (IH false) as [Hs _]. split.
    + simpl. destruct (replace_runs false rest) as [|c' t] eqn:Et; [reflexivity|].
      rewrite (alnum_not_hyphen c Ec). simpl. exact Hs.
    + intros _. simpl. now apply alnum_not_hyphen.
  - destruct (IH true) as [Hs Hh]. specialize (Hh eq_refl).
    destruct b; [split; auto|]. split; [|discriminate].
    simpl. destruct (replace_runs true rest) as [|c' t] eqn:Et; [reflexivity|].
    simpl in Hh. rewrite Hh. exact Hs.
Qed.

Lemma single_hyphens_tail c t :
  Spec.single_hyphens (String c t) = true -> Spec.single_hyphens t = true.
Proof.
  simpl. destruct t; [reflexivity|]. intros H.
  apply andb_true_iff in H. tauto.
Qed.

Lemma single_hyphens_head c t :
  Spec.single_hyphens (String c t) = true ->
  Ascii.eqb c hyphen = true -> Spec.starts_with_hyphen t = false.
Proof.
  simpl. destruct t as [|c' t]; [reflexivity|]. intros H Hc.
  rewrite Hc in H. simpl in *. destruct (Ascii.eqb c' hyphen); [discriminate|reflexivity].
Qed.

Lemma trim_leading_no_hyphen t :
  Spec.starts_with_hyphen t = false -> Spec.trim_leading_hyphens t = t.
Proof. destruct t; simpl; [reflexivity|]. now intros ->. Qed.

Lemma drop_leading_is_trim t :
  Spec.single_hyphens t = true ->
  drop_leading_hyphen t = Spec.trim_leading_hyphens t.
Proof.
  destruct t as [|c t]; [reflexivity|]. intros Hs. simpl.
  destruct (Ascii.eqb c hyphen) eqn:Ec; [|reflexivity].
  symmetry. apply trim_leading_no_hyphen.
  now apply (single_hyphens_head c).
Qed.

Lemma drop_leading_single t :
  Spec.single_hyphens t = true -> Spec.single_hyphens (drop_leading_hyphen t) = true.
Proof.
  destruct t as [|c t]; [reflexivity|]. intros Hs. simpl.
  destruct (Ascii.eqb c hyphen); [now apply (single_hyphens_tail c) | exact Hs].
Qed.

(** A string that trims to nothing from the right is empty or starts
    with a hyphen. *)
Lemma trim_trailing_empty t :
  Spec.trim_trailing_hyphens t = EmptyString ->
  t = EmptyString \/ Spec.starts_with_hyphen t = true.
Proof.
  destruct t as [|c t]; [now left|]. simpl.
  destruct (Spec.trim_trailing_hyphens t); [|discriminate].
  destruct (Ascii.eqb c hyphen); [now right | discriminate].
Qed.

Lemma drop_trailing_is_trim t :
  Spec.single_hyphens t = true ->
  drop_trailing_hyphen t = Spec.trim_trailing_hyphens t.
Proof.
  induction t as [|c rest IH]; [reflexivity|]. intros Hs.
  specialize (IH (single_hyphens_tail c rest Hs)).
  destruct rest as [|c' rest'].
  - simpl. destruct (Ascii.eqb c hyphen); reflexivity.
  - change (drop_trailing_hyphen (String c (String c' rest')))
      with (String c (drop_trailing_hyphen (String c' rest'))).
    rewrite IH.
    change (Spec.trim_trailing_hyphens (String c (String c' rest')))
      with (match Spec.trim_trailing_hyphens (String c' rest') with
            | EmptyString =>
                if Ascii.eqb c hyphen then EmptyString else String c EmptyString
            | String _ _ as r => String c r
            end).
    destruct (Spec.trim_trailing_hyphens (String c' rest')) eqn:Et; [|reflexivity].
    destruct (Ascii.eqb c hyphen) eqn:Ec; [|reflexivity].
    destruct (trim_trailing_empty _ Et) as [Hnil | Hh]; [discriminate|].
    pose proof (single_hyphens_head c _ Hs Ec). congruence.
Qed.

Lemma or_else_nonempty a b : a <> "" -> or_else a b = a.
Proof.
  intros Ha. unfold or_else. destruct (String.eqb a "") eqn:E; [|reflexivity].
  apply String.eqb_eq in E. contradiction.
Qed.

Lemma or_else_empty_right a : or_else a "" = a.
Proof. destruct a; reflexivity. Qed.

(** The two regular-expression replacements compute the slug rule. *)
Lemma safeSlug_is_slug s : safeSlug s = Spec.slug s.
Proof.
  unfold safeSlug, Spec.slug, replace_edges. rewrite or_else_empty_right.
  pose proof (proj1 (replace_runs_single false (toLowerCase s))) as Hs.
  rewrite drop_trailing_is_trim by now apply drop_leading_single.
  rewrite drop_leading_is_trim by exact Hs.
  now rewrite (proj1 (replace_runs_collapse (toLowerCase s))).
Qed.

Lemma exportStem_plain h p :
  safeSlug (programmeTitle p) <> "" -> mappingDate p <> "" ->
  exportStem h p = safeSlug (programmeTitle p) ++ "-" ++ mappingDate p.
Proof.
  intros Hslug Hdate. unfold exportStem.
  assert (Ht : programmeTitle p <> "").
  { intros E. apply Hslug. rewrite E. reflexivity. }
  now rewrite (or_else_nonempty (programmeTitle p)), !or_else_nonempty.
Qed.

(** C7. The name of an exported file is the slug of the programme title,
    a hyphen, the mapping date and the extension, where the slug is the
    title lower-cased, with every run of characters outside [a-z0-9]
    collapsed to one hyphen and the leading and trailing hyphens trimmed
    (when the slug or the date is empty a fallback takes its place).  In
    particular the title "MSc Public Health!!" with the mapping date
    "2024-03-01" gives "msc-public-health-2024-03-01". *)
Theorem export_filename_is_slug_and_date (h : Host) (st : State) :
  safeSlug (programmeTitle (programme st)) <> "" ->
  mappingDate (programme st) <> "" ->
  safeSlug (programmeTitle (programme st)) = Spec.slug (programmeTitle (programme st))
  /\ fst (exportJSON h st)
     = (safeSlug (programmeTitle (programme st)) ++ "-" ++ mappingDate (programme st))
         ++ ".json"
  /\ fst (exportMarkdown h st)
     = (safeSlug (programmeTitle (programme st)) ++ "-" ++ mappingDate (programme st))
         ++ ".md"
  /\ safeSlug "MSc Public Health!!" ++ "-" ++ "2024-03-01"
     = "msc-public-health-2024-03-01".
Proof.
  intros Hslug Hdate. split; [apply safeSlug_is_slug|].
  unfold exportJSON, exportMarkdown. cbn [fst].
  rewrite (exportStem_plain h _ Hslug Hdate).
  repeat split; reflexivity.
Qed.

End Slug.

(** The scenario: title "MSc Public Health!!", mapping date "2024-03-01". *)
Lemma export_filename_is_slug_and_date_witness :
  safeSlug (programmeTitle (programme Samples.session)) <> ""
  /\ mappingDate (programme Samples.session) <> ""
  /\ fst (exportJSON Samples.host Samples.session) = "msc-public-health-2024-03-01.json"
  /\ fst (exportMarkdown Samples.host Samples.session) = "msc-public-health-2024-03-01.md".
Proof.
  assert (H1 : safeSlug (programmeTitle (programme Samples.session)) <> "")
    by discriminate.
  assert (H2 : mappingDate (programme Samples.session) <> "") by discriminate.
  destruct (export_filename_is_slug_and_date Samples.host Samples.session H1 H2)
    as (_ & Hjson & Hmd & _).
  split; [exact H1|]. split; [exact H2|].
  split; [rewrite Hjson | rewrite Hmd]; reflexivity.
Defined.

(* ===================================================================== *)
(** * The Markdown report                                                *)
(* ===================================================================== *)

Section Report.

Lemma type_eqb_eq a b : type_eqb a b = true <-> a = b.
Proof. destruct a, b; simpl; split; intros H; try reflexivity; discriminate H. Qed.

Lemma group_none items t :
  Forall (fun it => type it <> t) items -> group items t = [].
Proof.
  induction 1 as [|it rest Hit _ IH]; [reflexivity|].
  unfold group in *. simpl.
  destruct (type_eqb (type it) t) eqn:E; [|exact IH].
  apply type_eqb_eq in E. contradiction.
Qed.

Lemma group_some items t :
  Exists (fun it => type it = t) items -> (length (group items t) =? 0) = false.
Proof.
  induction 1 as [it rest Hit | it rest _ IH]; unfold group in *; simpl.
  - apply type_eqb_eq in Hit. now rewrite Hit.
  - destruct (type_eqb (type it) t); [reflexivity | exact IH].
Qed.

(** One section: the heading, a blank line, then the body. *)
Lemma renderType_section items t :
  exists body,
    renderType items t = ("### " ++ PLURAL_LABELS t) :: "" :: body
    /\ Spec.section_body items t
         ("_(No " ++ toLowerCase (PLURAL_LABELS t) ++ " added.)_") body.
Proof.
  unfold renderType.
  eexists. split; [reflexivity|]. split.
  - intros Hnone. now rewrite (group_none items t Hnone).
  - intros Hsome. now rewrite (group_some items t Hsome).
Qed.

(** C9. Whatever the items are, the report has the three item sections,
    headed Modules, Activities and Assessments in that order, between
    the head and the tail of the report.  Each heading is followed by a
    blank line and the body of the section; when no item has the type,
    the body is the italic placeholder line and a blank line, and not a
    table. *)
Theorem report_sections_in_fixed_order
        (h : Host) (toolName exportedAtISO : string) (p : ProgrammeDetails)
        (items : list MapItem) (c : counts) (obs : list string) :
  exists mods acts asms,
    buildMarkdown h toolName exportedAtISO p items c obs
    = join nl
        (reportHead h toolName exportedAtISO p c obs
           ++ ("### Modules" :: "" :: mods)
           ++ ("### Activities" :: "" :: acts)
           ++ ("### Assessments" :: "" :: asms)
           ++ reportTail items c)%list
    /\ Spec.section_body items Module' "_(No modules added.)_" mods
    /\ Spec.section_body items Activity "_(No activities added.)_" acts
    /\ Spec.section_body items Assessment "_(No assessments added.)_" asms.
Proof.
  destruct (renderType_section items Module') as (mods & E1 & B1).
  destruct (renderType_section items Activity) as (acts & E2 & B2).
  destruct (renderType_section items Assessment) as (asms & E3 & B3).
  exists mods, acts, asms.
  unfold buildMarkdown, markdownLines. rewrite E1, E2, E3.
  repeat split; solve [reflexivity | apply B1 | apply B2 | apply B3].
Qed.

End Report.

(** A mapping with one Activity and nothing else: the Modules and the
    Assessments sections are placeholders, the Activities section is a
    table. *)
Lemma report_sections_in_fixed_order_witness :
  exists acts,
    buildMarkdown Samples.host TOOL_NAME "2024-03-01T10:00:00.000Z"
      Samples.public_health [Samples.workshop] (coverage [Samples.workshop])
      (observations (coverage [Samples.workshop]) 1)
    = join nl
        (reportHead Samples.host TOOL_NAME "2024-03-01T10:00:00.000Z"
           Samples.public_health (coverage [Samples.workshop])
           (observations (coverage [Samples.workshop]) 1)
           ++ [ "### Modules"; ""; "_(No modules added.)_"; "" ]
           ++ ("### Activities" :: "" :: acts)
           ++ [ "### Assessments"; ""; "_(No assessments added.)_"; "" ]
           ++ reportTail [Samples.workshop] (coverage [Samples.workshop]))%list
    /\ acts = [ "| # | Item | Domain tags | Notes |";
                "|---:|---|---|---|";
                "| 1 | Workshop | Awareness, Ethics | _—_ |";
                "" ].
Proof.
  destruct (report_sections_in_fixed_order Samples.host TOOL_NAME
              "2024-03-01T10:00:00.000Z" Samples.public_health [Samples.workshop]
              (coverage [Samples.workshop])
              (observations (coverage [Samples.workshop]) 1))
    as (mods & acts & asms & E & [Hmods _] & [_ Hacts] & [Hasms _]).
  assert (Hm : Forall (fun it => type it <> Module') [Samples.workshop])
    by (repeat constructor; discriminate).
  assert (Ha : Exists (fun it => type it = Activity) [Samples.workshop])
    by (left; reflexivity).
  assert (Hs : Forall (fun it => type it <> Assessment) [Samples.workshop])
    by (repeat constructor; discriminate).
  exists acts. rewrite E, (Hmods Hm), (Hasms Hs), (Hacts Ha).
  split; reflexivity.
Defined.

(* ===================================================================== *)
(** * Coverage, domain by domain                                         *)
(* ===================================================================== *)

Section CoverageByDomain.

Lemma count_of_bump c k k' :
  count_of (bump c k) k'
  = if String.eqb k k' then num_add (count_of c k) (Int 1) else count_of c k'.
Proof.
  unfold bump, count_of at 1.
  destruct (String.eqb k k') eqn:E.
  - apply String.eqb_eq in E. subst k'. now rewrite lookup_set_same.
  - apply String.eqb_neq in E. now rewrite lookup_set_other.
Qed.

(** The loop over the keys of one item adds to the counter of [k'] the
    number of occurrences of [k'] among the keys whose tag is truthy. *)
Lemma count_item_keys_at (o : object) (k' : string) (ks : list string) :
  forall c n, count_of c k' = Int n ->
    count_of
      (fold_left (fun counts k => if truthy (tag o k) then bump counts k else counts) ks c)
      k'
    = Int (n + length (filter (fun k => String.eqb k k' && truthy (tag o k)) ks)).
Proof.
  induction ks as [|k rest IH]; intros c n Hc; simpl.
  - now rewrite Nat.add_0_r.
  - destruct (truthy (tag o k)) eqn:Et.
    + destruct (String.eqb k k') eqn:E; simpl.
      * rewrite (IH (bump c k) (n + 1)).
        -- f_equal. lia.
        -- rewrite count_of_bump, E.
           apply String.eqb_eq in E. subst k'. now rewrite Hc.
      * apply IH. now rewrite count_of_bump, E.
    + rewrite andb_false_r. simpl. now apply IH.
Qed.

Lemma mem_true_in k ks : Spec.mem k ks = true <-> In k ks.
Proof.
  unfold Spec.mem. rewrite existsb_exists. split.
  - intros (x & Hx & E). apply String.eqb_eq in E. now subst.
  - intros H. exists k. split; [exact H | apply String.eqb_refl].
Qed.

Lemma tag_absent (o : object) k : Spec.mem k (keys o) = false -> tag o k = VUndefined.
Proof.
  unfold tag. induction o as [|[k0 v0] rest IH]; simpl; [reflexivity|].
  rewrite String.eqb_sym. destruct (String.eqb k0 k); simpl; [discriminate | exact IH].
Qed.

(** With each key once, a key occurs among the truthy ones once or not at
    all. *)
Lemma truthy_occurrences (f : string -> bool) k' ks :
  Spec.nodupb ks = true ->
  length (filter (fun k => String.eqb k k' && f k) ks)
  = if Spec.mem k' ks && f k' then 1 else 0.
Proof.
  induction ks as [|k rest IH]; simpl; intros Hnd; [reflexivity|].
  apply andb_true_iff in Hnd. destruct Hnd as [Hk Hnd].
  apply negb_true_iff in Hk. rewrite (String.eqb_sym k' k).
  destruct (String.eqb k k') eqn:E; simpl.
  - apply String.eqb_eq in E. subst k'.
    pose proof (IH Hnd) as Hrest. rewrite Hk in Hrest. simpl in Hrest.
    destruct (f k); simpl; rewrite Hrest; reflexivity.
  - now apply IH.
Qed.

Lemma count_item_at (o : object) k' c n :
  Spec.nodupb (keys o) = true ->
  count_of c k' = Int n ->
  count_of
    (fold_left (fun counts k => if truthy (tag o k) then bump counts k else counts)
               (keys o) c)
    k'
  = Int (n + if truthy (tag o k') then 1 else 0).
Proof.
  intros Hnd Hc. rewrite (count_item_keys_at o k' (keys o) c n Hc).
  rewrite (truthy_occurrences (fun k => truthy (tag o k)) k' (keys o) Hnd).
  destruct (Spec.mem k' (keys o)) eqn:Em; [reflexivity|].
  now rewrite (tag_absent o k' Em).
Qed.

Lemma count_items_at (items : list MapItem) k' :
  Forall (fun it => Spec.nodupb (keys (domains it)) = true) items ->
  forall c n, count_of c k' = Int n ->
    count_of
      (fold_left
         (fun counts item =>
            fold_left
              (fun counts k => if truthy (tag (domains item) k) then bump counts k else counts)
              (keys (domains item)) counts)
         items c)
      k'
    = Int (n + Spec.count_tagged k' items).
Proof.
  induction 1 as [|it rest Hit _ IH]; intros c n Hc; simpl.
  - unfold Spec.count_tagged. simpl. now rewrite Nat.add_0_r.
  - rewrite (IH _ (n + if truthy (tag (domains it) k') then 1 else 0)).
    + f_equal. unfold Spec.count_tagged. simpl.
      destruct (truthy (tag (domains it) k')); simpl; lia.
    + now apply count_item_at.
Qed.

Lemma counts0_at (k : DomainKey) :
  count_of
    [ ("awareness", Int 0); ("coagency", Int 0); ("practice", Int 0);
      ("ethics", Int 0); ("governance", Int 0); ("reflection", Int 0) ]
    (key_string k) = Int 0.
Proof. destruct k; reflexivity. Qed.

Lemma coverage_at (items : list MapItem) (k : DomainKey) :
  Forall (fun it => Spec.nodupb (keys (domains it)) = true) items ->
  count_of (coverage items) (key_string k) = Int (Spec.count_tagged (key_string k) items).
Proof.
  intros Hnd. unfold coverage.
  now rewrite (count_items_at items (key_string k) Hnd _ 0 (counts0_at k)).
Qed.

(** X1. For items whose tag objects have each key once, the coverage
    count of every domain is the number of items whose tag for that domain
    is truthy: no item is counted twice, none is left out, and a tag that
    is not a boolean counts when it is truthy. *)
Theorem coverage_counts_truthy_tags (items : list MapItem) (d : Domain) :
  Forall (fun it => Spec.nodupb (keys (domains it)) = true) items ->
  cov (coverage items) d = Int (Spec.count_tagged (key_string (key d)) items).
Proof. intros Hnd. unfold cov. now apply coverage_at. Qed.

End CoverageByDomain.

Lemma coverage_counts_truthy_tags_witness :
  Forall (fun it => Spec.nodupb (keys (domains it)) = true)
         [Samples.workshop; Samples.foundations]
  /\ Forall (fun d => cov (coverage [Samples.workshop; Samples.foundations]) d
                      = Int (Spec.count_tagged (key_string (key d))
                               [Samples.workshop; Samples.foundations]))
            DOMAINS.
Proof.
  assert (H : Forall (fun it => Spec.nodupb (keys (domains it)) = true)
                     [Samples.workshop; Samples.foundations])
    by (repeat constructor).
  split; [exact H|].
  apply Forall_forall. intros d _.
  exact (coverage_counts_truthy_tags [Samples.workshop; Samples.foundations] d H).
Defined.

(* ===================================================================== *)
(** * When the exports are enabled, and what the observations say when
      they are not                                                       *)
(* ===================================================================== *)

Section ExportGate.

Lemma positive_sum a b : (0 <? a + b) = (0 <? a) || (0 <? b).
Proof.
  destruct (Nat.ltb_spec 0 a), (Nat.ltb_spec 0 b), (Nat.ltb_spec 0 (a + b));
    simpl; auto; lia.
Qed.

Lemma positive_length_filter {A} (f : A -> bool) (l : list A) :
  (0 <? length (filter f l)) = existsb f l.
Proof.
  induction l as [|x rest IH]; simpl; [reflexivity|].
  destruct (f x); simpl; [reflexivity | exact IH].
Qed.

Lemma existsb_orb {A} (f g : A -> bool) (l : list A) :
  existsb (fun x => f x || g x) l = existsb f l || existsb g l.
Proof.
  induction l as [|x rest IH]; simpl; [reflexivity|].
  rewrite IH. destruct (f x), (g x), (existsb f rest), (existsb g rest); reflexivity.
Qed.

Lemma existsb_pointwise {A} (f g : A -> bool) (l : list A) :
  (forall x, f x = g x) -> existsb f l = existsb g l.
Proof. intros H. induction l as [|x rest IH]; simpl; [|rewrite H, IH]; reflexivity. Qed.

(** The total is the sum of the six per-domain counts. *)
Lemma total_by_domain (items : list MapItem) :
  Forall (fun it => Spec.nodupb (keys (domains it)) = true) items ->
  totalDomainTags (coverage items)
  = Int (Spec.count_tagged "awareness" items + Spec.count_tagged "coagency" items
         + Spec.count_tagged "practice" items + Spec.count_tagged "ethics" items
         + Spec.count_tagged "governance" items + Spec.count_tagged "reflection" items).
Proof.
  intros Hnd. unfold totalDomainTags, DOMAINS, cov. cbn [fold_left key].
  rewrite (coverage_at items awareness Hnd), (coverage_at items coagency Hnd),
    (coverage_at items practice Hnd), (coverage_at items ethics Hnd),
    (coverage_at items governance Hnd), (coverage_at items reflection Hnd).
  reflexivity.
Qed.

Lemma hasAnyTag_any_tagged (items : list MapItem) :
  Forall (fun it => Spec.nodupb (keys (domains it)) = true) items ->
  hasAnyTag (coverage items) = Spec.any_tagged items.
Proof.
  intros Hnd. unfold hasAnyTag. rewrite (total_by_domain items Hnd).
  unfold positive, Spec.count_tagged.
  rewrite !positive_sum, !positive_length_filter, <- !existsb_orb.
  unfold Spec.any_tagged. apply existsb_pointwise. intros it. simpl.
  now rewrite orb_false_r, !orb_assoc.
Qed.

(** X2. The export buttons are enabled exactly when some item carries a
    truthy tag under one of the six domain keys. *)
Theorem exports_enabled_iff_tagged (st : State) :
  Forall (fun it => Spec.nodupb (keys (domains it)) = true) (items st) ->
  exportDisabled st = negb (Spec.any_tagged (items st)).
Proof.
  intros Hnd. unfold exportDisabled. now rewrite hasAnyTag_any_tagged.
Qed.

(** X3. When no item carries a truthy tag under any of the six domain
    keys, the observations are exactly three sentences: the item count, the
    invitation to add tags, and the closing remark.  No domain is named as
    most or least represented and no gap is listed. *)
Theorem observations_without_tags (items : list MapItem) :
  Forall (fun it => Spec.nodupb (keys (domains it)) = true) items ->
  Spec.any_tagged items = false ->
  observations (coverage items) (length items)
  = [ "You mapped " ++ string_of_nat (length items) ++ " item"
        ++ (if length items =? 1 then "" else "s")
        ++ ". Domain tagging indicates where attention is currently concentrated.";
      "No domain tags yet. Add a few items and tag at least one domain to generate coverage insights.";
      "Treat these signals as prompts for discussion, not as performance scores." ].
Proof.
  intros Hnd Hnone.
  pose proof (hasAnyTag_any_tagged items Hnd) as Hgate.
  rewrite Hnone in Hgate. unfold hasAnyTag in Hgate.
  unfold observations. rewrite Hgate. reflexivity.
Qed.

End ExportGate.

Lemma exports_enabled_iff_tagged_witness :
  Forall (fun it => Spec.nodupb (keys (domains it)) = true) (items Samples.session)
  /\ exportDisabled Samples.session = false.
Proof.
  assert (H : Forall (fun it => Spec.nodupb (keys (domains it)) = true)
                     (items Samples.session))
    by (repeat constructor).
  split; [exact H|].
  rewrite (exports_enabled_iff_tagged Samples.session H). reflexivity.
Defined.

Lemma observations_without_tags_witness :
  Forall (fun it => Spec.nodupb (keys (domains it)) = true) Samples.untagged
  /\ Spec.any_tagged Samples.untagged = false
  /\ observations (coverage Samples.untagged) 2
     = [ "You mapped 2 items. Domain tagging indicates where attention is currently concentrated.";
         "No domain tags yet. Add a few items and tag at least one domain to generate coverage insights.";
         "Treat these signals as prompts for discussion, not as performance scores." ].
Proof.
  assert (H : Forall (fun it => Spec.nodupb (keys (domains it)) = true)
                     Samples.untagged)
    by (repeat constructor).
  split; [exact H|]. split; [reflexivity|].
  exact (observations_without_tags Samples.untagged H eq_refl).
Defined.

(* ===================================================================== *)
(** * Observations when the counts already descend along the registry    *)
(* ===================================================================== *)

Section RegistryOrder.

(** Sorting a list that is already ordered changes nothing. *)
Lemma sort_ordered {A : Type} (cmp : A -> A -> option Z) (f : A -> nat) (l : list A) :
  Spec.by_decreasing cmp f l ->
  StronglySorted (fun x y => f y <= f x) l ->
  sort cmp l = l.
Proof.
  intros Hcmp Hs. induction Hs as [|a rest Hrest IH Ha]; [reflexivity|].
  simpl. rewrite IH by (intros x y Hx Hy; apply Hcmp; now right).
  destruct rest as [|b rest']; [reflexivity|]. simpl.
  rewrite (Hcmp a b) by (simpl; auto).
  inversion Ha as [|? ? Hb _]; subst.
  destruct (Nat.ltb_spec (f a) (f b)); [lia | reflexivity].
Qed.

Lemma fold_keeps_count (items : list MapItem) (k' : string) :
  forall c n, count_of c k' = Int n ->
    exists m,
      count_of
        (fold_left
           (fun counts item =>
              fold_left
                (fun counts k => if truthy (tag (domains item) k) then bump counts k else counts)
                (keys (domains item)) counts)
           items c)
        k' = Int m.
Proof.
  induction items as [|it rest IH]; intros c n Hc; simpl.
  - now exists n.
  - eapply IH. eapply count_item_keys_at. exact Hc.
Qed.

(** Whatever the items are, the six counters hold counts. *)
Lemma coverage_is_count (items : list MapItem) (k : DomainKey) :
  exists n, count_of (coverage items) (key_string k) = Int n.
Proof. unfold coverage. exact (fold_keeps_count items _ _ 0 (counts0_at k)). Qed.

Lemma coverage_counts_tagged (items : list MapItem) :
  Forall (fun d => cov (coverage items) d = Int (Spec.tagged (coverage items) d)) DOMAINS.
Proof.
  apply Forall_forall. intros d _. unfold Spec.tagged, cov.
  destruct (coverage_is_count items (key d)) as [n ->]. reflexivity.
Qed.

(** X4. When the counts do not increase along the registry (in
    particular when all six are equal), the stable sort leaves the registry
    as it is: the domain named most represented is the first of the
    registry, Awareness & Orientation, and the one named least represented
    is the last, Reflection, Learning & Renewal, even on a full tie. *)
Theorem registry_order_kept_when_counts_descend (items : list MapItem) :
  StronglySorted
    (fun a b => Spec.tagged (coverage items) b <= Spec.tagged (coverage items) a)
    DOMAINS ->
  sortedDomains (coverage items) = DOMAINS
  /\ most (coverage items) = nth_error DOMAINS 0
  /\ least (coverage items) = nth_error DOMAINS 5.
Proof.
  intros Hs.
  assert (E : sortedDomains (coverage items) = DOMAINS).
  { unfold sortedDomains.
    apply (sort_ordered _ (Spec.tagged (coverage items))); [|exact Hs].
    apply comparator_by_decreasing, coverage_counts_tagged. }
  unfold most, least. rewrite E. repeat split; reflexivity.
Qed.

End RegistryOrder.

Lemma registry_order_kept_when_counts_descend_witness :
  StronglySorted
    (fun a b => Spec.tagged (coverage [Samples.foundations]) b
                <= Spec.tagged (coverage [Samples.foundations]) a)
    DOMAINS
  /\ option_map Content.name (most (coverage [Samples.foundations]))
     = Some "Awareness & Orientation"
  /\ option_map Content.name (least (coverage [Samples.foundations]))
     = Some "Reflection, Learning & Renewal".
Proof.
  assert (H : StronglySorted
                (fun a b => Spec.tagged (coverage [Samples.foundations]) b
                            <= Spec.tagged (coverage [Samples.foundations]) a)
                DOMAINS).
  { repeat first [ apply SSorted_nil | apply SSorted_cons
                 | apply Forall_nil | apply Forall_cons
                 | (vm_compute; lia) ]. }
  split; [exact H|].
  destruct (registry_order_kept_when_counts_descend [Samples.foundations] H)
    as (_ & -> & ->).
  split; reflexivity.
Defined.

(* ===================================================================== *)
(** * Normalising what is already normal                                 *)
(* ===================================================================== *)

Section Renormalise.

Lemma keys_length {V} (o : list (string * V)) : length (keys o) = length o.
Proof. apply length_map. Qed.

Lemma keys_set {V} (o : list (string * V)) k v :
  keys (set o k v) = if Spec.mem k (keys o) then keys o else (keys o ++ [k])%list.
Proof.
  induction o as [|[k0 v0] rest IH]; simpl; [reflexivity|].
  rewrite (String.eqb_sym k k0).
  destruct (String.eqb k0 k); simpl; [reflexivity|].
  rewrite IH. destruct (Spec.mem k (keys rest)); reflexivity.
Qed.

Lemma set_fresh {V} (o : list (string * V)) k v :
  Spec.mem k (keys o) = false -> set o k v = (o ++ [(k, v)])%list.
Proof.
  induction o as [|[k0 v0] rest IH]; simpl; [reflexivity|].
  rewrite (String.eqb_sym k k0).
  destruct (String.eqb k0 k); simpl; [discriminate|].
  intros H. now rewrite IH.
Qed.

Lemma mem_app k l1 l2 : Spec.mem k (l1 ++ l2) = Spec.mem k l1 || Spec.mem k l2.
Proof. unfold Spec.mem. apply existsb_app. Qed.

Lemma nodupb_app l1 l2 :
  Spec.nodupb (l1 ++ l2) = true ->
  Spec.nodupb l1 = true /\ Spec.nodupb l2 = true
  /\ forall k, In k l2 -> Spec.mem k l1 = false.
Proof.
  induction l1 as [|a rest IH]; simpl; intros H.
  - repeat split; auto.
  - apply andb_true_iff in H. destruct H as [Ha H].
    rewrite mem_app in Ha. apply negb_true_iff, orb_false_iff in Ha.
    destruct Ha as [Ha1 Ha2]. destruct (IH H) as (H1 & H2 & H3).
    repeat split; auto.
    + now rewrite Ha1, H1.
    + intros k Hk. rewrite (H3 k Hk), orb_false_r.
      destruct (String.eqb k a) eqn:E; [|reflexivity].
      apply String.eqb_eq in E. subst k.
      apply mem_true_in in Hk. congruence.
Qed.

Lemma nodupb_snoc l k :
  Spec.nodupb l = true -> Spec.mem k l = false -> Spec.nodupb (l ++ [k]) = true.
Proof.
  induction l as [|a rest IH]; simpl; intros Hnd Hk; [reflexivity|].
  apply andb_true_iff in Hnd. destruct Hnd as [Ha Hnd].
  apply orb_false_iff in Hk. destruct Hk as [Hka Hk].
  rewrite mem_app, (IH Hnd Hk). apply negb_true_iff in Ha. rewrite Ha. simpl.
  rewrite String.eqb_sym, Hka. reflexivity.
Qed.

Lemma nodupb_set {V} (o : list (string * V)) k v :
  Spec.nodupb (keys o) = true -> Spec.nodupb (keys (set o k v)) = true.
Proof.
  intros H. rewrite keys_set.
  destruct (Spec.mem k (keys o)) eqn:E; [exact H | now apply nodupb_snoc].
Qed.

Lemma firstn_keys_set {V} (o : list (string * V)) k v :
  firstn (length o) (keys (set o k v)) = keys o.
Proof.
  rewrite keys_set, <- (keys_length o).
  destruct (Spec.mem k (keys o)).
  - apply firstn_all.
  - rewrite firstn_app, firstn_all, Nat.sub_diag. simpl. apply app_nil_r.
Qed.

Lemma length_set_le {V} (o : list (string * V)) k v : length o <= length (set o k v).
Proof.
  rewrite <- !keys_length, keys_set.
  destruct (Spec.mem k (keys o)); [lia | rewrite length_app; lia].
Qed.

(** Overlaying entries keeps the keys that were there, in their places. *)
Lemma spread_keeps_prefix (b a : object) :
  firstn (length a) (keys (spread a b)) = keys a.
Proof.
  unfold spread. revert a. induction b as [|[k v] rest IH]; intros a; simpl.
  - rewrite <- (keys_length a). apply firstn_all.
  - pose proof (length_set_le a k v) as Hle.
    rewrite <- (Nat.min_l _ _ Hle), <- firstn_firstn, IH.
    apply firstn_keys_set.
Qed.

Lemma spread_nodup (b a : object) :
  Spec.nodupb (keys a) = true -> Spec.nodupb (keys (spread a b)) = true.
Proof.
  unfold spread. revert a. induction b as [|[k v] rest IH]; intros a Ha; simpl; auto.
  apply IH. now apply nodupb_set.
Qed.

Lemma spread_tags_in_order (b : object) : Spec.tags_in_order (spread emptyDomains b).
Proof.
  split.
  - exact (spread_keeps_prefix b emptyDomains).
  - now apply spread_nodup.
Qed.

(** Overlaying entries with fresh, distinct keys appends them. *)
Lemma spread_fresh (b a : object) :
  Spec.nodupb (keys (a ++ b)) = true -> spread a b = (a ++ b)%list.
Proof.
  unfold spread. revert a. induction b as [|[k v] rest IH]; intros a Hnd; simpl.
  - now rewrite app_nil_r.
  - assert (Hk : Spec.mem k (keys a) = false).
    { unfold keys in Hnd. rewrite map_app in Hnd.
      apply nodupb_app in Hnd. destruct Hnd as (_ & _ & H). apply H. now left. }
    rewrite (set_fresh a k v Hk), IH.
    + now rewrite <- app_assoc.
    + now rewrite <- app_assoc.
Qed.

(** Tags in order are a fixed point of the overlay on the six false
    tags. *)
Lemma spread_fixed (o : object) :
  Spec.tags_in_order o -> spread emptyDomains o = o.
Proof.
  intros [Hkeys Hnd].
  destruct o as [|[k1 v1] [|[k2 v2] [|[k3 v3] [|[k4 v4] [|[k5 v5] [|[k6 v6] extras]]]]]];
    try discriminate Hkeys.
  simpl in Hkeys. injection Hkeys as -> -> -> -> -> ->.
  change (spread emptyDomains
            (("awareness", v1) :: ("coagency", v2) :: ("practice", v3)
               :: ("ethics", v4) :: ("governance", v5) :: ("reflection", v6) :: extras))
    with (spread
            [ ("awareness", v1); ("coagency", v2); ("practice", v3);
              ("ethics", v4); ("governance", v5); ("reflection", v6) ]
            extras).
  now apply spread_fresh.
Qed.

Lemma normalizeItem_domains h it n :
  domains (fst (normalizeItem h it n)) = spread emptyDomains (Spec.source_tags it).
Proof. unfold normalizeItem, bind. destruct (prop it "id"); reflexivity. Qed.

Lemma coerce_type_string t : coerceMapItemType (VStr (type_string t)) = t.
Proof. destruct t; reflexivity. Qed.

(** An item with its tags in order is read back as it is, and no
    identifier is drawn. *)
Lemma normalizeItem_fixed h it n :
  Spec.tags_in_order (domains it) ->
  normalizeItem h (Spec.itemValue it) n = (it, n).
Proof.
  intros Hord. destruct it as [i t nm nt d]. simpl in Hord.
  unfold normalizeItem, bind, ret, Spec.itemValue.
  cbn [prop lookup String.eqb Ascii.eqb Bool.eqb id type name notes domains
       string_or typeof truthy andb own_entries].
  rewrite coerce_type_string, (spread_fixed d Hord). reflexivity.
Qed.

Lemma mapM_normalizeItem_fixed h its :
  Forall (fun it => Spec.tags_in_order (domains it)) its ->
  forall n, mapM (normalizeItem h) (map Spec.itemValue its) n = (its, n).
Proof.
  induction 1 as [|it rest Hit _ IH]; intros n; [reflexivity|].
  cbn [map]. rewrite mapM_cons, (normalizeItem_fixed h it n Hit). cbn [fst snd].
  now rewrite IH.
Qed.

Lemma normalizeItems_fixed h its n :
  its <> [] ->
  Forall (fun it => Spec.tags_in_order (domains it)) its ->
  normalizeItems h (Spec.itemsValue its) n = (its, n).
Proof.
  intros Hne Hord. destruct its as [|it rest]; [contradiction|].
  unfold Spec.itemsValue. cbn [map]. rewrite normalizeItems_array.
  exact (mapM_normalizeItem_fixed h (it :: rest) Hord n).
Qed.

Lemma mapM_tags_in_order h xs :
  forall n, Forall (fun it => Spec.tags_in_order (domains it))
                   (fst (mapM (normalizeItem h) xs n)).
Proof.
  induction xs as [|x rest IH]; intros n; [constructor|].
  rewrite mapM_cons. cbn [fst]. constructor; [|apply IH].
  rewrite normalizeItem_domains. apply spread_tags_in_order.
Qed.

Lemma normalizeItems_in_order h v n :
  Forall (fun it => Spec.tags_in_order (domains it)) (fst (normalizeItems h v n)).
Proof.
  assert (Hblank : forall t k, Forall (fun it => Spec.tags_in_order (domains it))
                                      [fst (newItem h t k)]).
  { intros t k. repeat constructor. }
  destruct v as [| | | | |xs|]; try apply Hblank.
  destruct xs as [|x rest]; [apply Hblank|].
  rewrite normalizeItems_array. apply mapM_tags_in_order.
Qed.

(** X6. Normalisation is idempotent: the items [normalizeItems] returns,
    written out as JSON values and normalised again, come back unchanged
    (identifiers, types, names, notes and every tag, extra keys included),
    and the second pass draws no identifier. *)
Theorem normalizeItems_idempotent (h : Host) (v : value) (n m : nat) :
  normalizeItems h (Spec.itemsValue (fst (normalizeItems h v n))) m
  = (fst (normalizeItems h v n), m).
Proof.
  apply normalizeItems_fixed.
  - apply normalizeItems_not_nil.
  - apply normalizeItems_in_order.
Qed.

End Renormalise.

(* ===================================================================== *)
(** * Reloading and importing                                            *)
(* ===================================================================== *)

Section Reload.

Lemma normalizeProgramme_fixed h p : normalizeProgramme h (Spec.programmeValue p) = p.
Proof. destruct p. reflexivity. Qed.

(** X7. Anything that is not an object with properties (null, a boolean,
    a number, a string, an array, a missing value) is normalised to the
    default programme: blank fields, today's date, version "v0.1". *)
Theorem normalizeProgramme_of_non_object (h : Host) (v : value) :
  (forall o, v <> VObj o) ->
  normalizeProgramme h v = defaultProgrammeDetails h.
Proof.
  intros Hv. destruct v as [| |b|x|s|xs|o]; try reflexivity.
  - destruct b; reflexivity.
  - unfold normalizeProgramme. destruct (truthy (VNum x) && _); reflexivity.
  - unfold normalizeProgramme. destruct (truthy (VStr s) && _); reflexivity.
  - now elim (Hv o).
Qed.

(** X8. A programme whose six fields are strings is returned as it is,
    whatever the date: today's date is only a default. *)
Theorem normalizeProgramme_keeps_strings (h : Host) (p : ProgrammeDetails) :
  normalizeProgramme h (Spec.programmeValue p) = p
  /\ forall v, normalizeProgramme h (Spec.programmeValue (normalizeProgramme h v))
               = normalizeProgramme h v.
Proof. split; [|intros v]; apply normalizeProgramme_fixed. Qed.

Lemma parse_empty : Json.parse "" = None.
Proof. reflexivity. Qed.

(** X9. Reloading is lossless: if the stored text parses to the record
    [{ programme, items }] of a state with at least one item and tags in
    order, [loadState] returns exactly that state and draws no
    identifier. *)
Theorem loadState_restores_saved_state (h : Host) (st : State) (text : string) (n : nat) :
  Json.parse text = Some (Spec.stateValue st) ->
  items st <> [] ->
  Forall (fun it => Spec.tags_in_order (domains it)) (items st) ->
  loadState h (Some text) n = (st, n).
Proof.
  intros Hparse Hne Hord. unfold loadState.
  destruct text as [|c text']; [discriminate Hparse|].
  rewrite Hparse. unfold bind, ret, Spec.stateValue.
  cbn [prop lookup String.eqb Ascii.eqb Bool.eqb].
  rewrite normalizeProgramme_fixed, (normalizeItems_fixed h (items st) n Hne Hord).
  destruct st. reflexivity.
Qed.

(** X10. Import is all or nothing.  A text that is not JSON gives the
    not-JSON alert, asks nothing and leaves the state alone; a declined
    confirmation leaves the state alone; otherwise the programme and the
    items are both replaced by the normalised content of the file, and the
    new item list is not empty. *)
Theorem import_is_all_or_nothing (h : Host) (ok : bool) (text : string) (st : State) (n : nat) :
  (Json.parse text = None ->
   handleImportFile h ok text st n = ((st, [Alert NOT_JSON]), n))
  /\ (ok = false -> fst (fst (handleImportFile h ok text st n)) = st)
  /\ (forall parsed, Json.parse text = Some parsed -> ok = true ->
      fst (handleImportFile h ok text st n)
      = ({| programme := normalizeProgramme h (prop parsed "programme");
            items := fst (normalizeItems h (prop parsed "items") n) |},
         [Confirm IMPORT_PROMPT])
      /\ fst (normalizeItems h (prop parsed "items") n) <> []).
Proof.
  unfold handleImportFile. repeat split.
  - now intros ->.
  - intros ->. destruct (Json.parse text) as [parsed|]; [|reflexivity].
    unfold bind. destruct (normalizeItems h (prop parsed "items") n) as [its n'].
    destruct (length its =? 0); reflexivity.
  - subst ok. rewrite H. unfold bind.
    pose proof (normalizeItems_not_nil h (prop parsed "items") n) as Hne.
    destruct (normalizeItems h (prop parsed "items") n) as [its n'].
    destruct its; [now elim Hne | reflexivity].
  - apply normalizeItems_not_nil.
Qed.

(** X11. Export then import is lossless: if the imported text parses to
    the payload [exportJSON] built from a state with at least one item and
    tags in order, a confirmed import installs exactly that state,
    whatever the current state and the current date are, and draws no
    identifier. *)
Theorem import_restores_exported_state
        (h h' : Host) (st st' : State) (text : string) (n : nat) :
  Json.parse text = Some (Spec.payloadValue (snd (exportJSON h st))) ->
  items st <> [] ->
  Forall (fun it => Spec.tags_in_order (domains it)) (items st) ->
  handleImportFile h' true text st' n = ((st, [Confirm IMPORT_PROMPT]), n).
Proof.
  intros Hparse Hne Hord. unfold handleImportFile. rewrite Hparse.
  unfold bind, ret, Spec.payloadValue, exportJSON.
  cbn [snd prop lookup String.eqb Ascii.eqb Bool.eqb payload_programme payload_items
       tool exportedAt].
  rewrite normalizeProgramme_fixed, (normalizeItems_fixed h' (items st) n Hne Hord).
  destruct (items st) as [|it rest] eqn:E; [contradiction|].
  cbn [length Nat.eqb negb]. rewrite <- E. destruct st. reflexivity.
Qed.

End Reload.

Lemma normalizeProgramme_of_non_object_witness :
  (forall o, VArr [VStr "MSc"] <> VObj o)
  /\ normalizeProgramme Samples.host (VArr [VStr "MSc"])
     = {| programmeTitle := ""; awardLevel := ""; department := "";
          institution := ""; mappingDate := "2024-03-01"; version := "v0.1" |}.
Proof.
  assert (H : forall o, VArr [VStr "MSc"] <> VObj o) by discriminate.
  split; [exact H|].
  exact (normalizeProgramme_of_non_object Samples.host (VArr [VStr "MSc"]) H).
Defined.

Lemma session_in_order :
  Forall (fun it => Spec.tags_in_order (domains it)) (items Samples.session).
Proof. repeat constructor. Qed.

Lemma loadState_restores_saved_state_witness :
  Json.parse Samples.session_stored = Some (Spec.stateValue Samples.session)
  /\ items Samples.session <> []
  /\ Forall (fun it => Spec.tags_in_order (domains it)) (items Samples.session)
  /\ loadState Samples.host (Some Samples.session_stored) 0 = (Samples.session, 0).
Proof.
  assert (H1 : Json.parse Samples.session_stored = Some (Spec.stateValue Samples.session))
    by (vm_compute; reflexivity).
  assert (H2 : items Samples.session <> []) by discriminate.
  split; [exact H1|]. split; [exact H2|]. split; [exact session_in_order|].
  exact (loadState_restores_saved_state Samples.host Samples.session
           Samples.session_stored 0 H1 H2 session_in_order).
Defined.

Lemma import_is_all_or_nothing_witness :
  Json.parse "not json" = None
  /\ handleImportFile Samples.host true "not json" Samples.session 0
     = ((Samples.session, [Alert NOT_JSON]), 0).
Proof.
  split; [reflexivity|].
  apply (proj1 (import_is_all_or_nothing Samples.host true "not json" Samples.session 0)).
  reflexivity.
Defined.

Lemma import_restores_exported_state_witness :
  Json.parse Samples.session_exported
  = Some (Spec.payloadValue (snd (exportJSON Samples.host Samples.session)))
  /\ items Samples.session <> []
  /\ Forall (fun it => Spec.tags_in_order (domains it)) (items Samples.session)
  /\ handleImportFile Samples.host true Samples.session_exported
       {| programme := defaultProgrammeDetails Samples.host; items := Samples.untagged |} 0
     = ((Samples.session, [Confirm IMPORT_PROMPT]), 0).
Proof.
  assert (H1 : Json.parse Samples.session_exported
               = Some (Spec.payloadValue (snd (exportJSON Samples.host Samples.session))))
    by (vm_compute; reflexivity).
  assert (H2 : items Samples.session <> []) by discriminate.
  split; [exact H1|]. split; [exact H2|]. split; [exact session_in_order|].
  exact (import_restores_exported_state Samples.host Samples.host Samples.session _
           Samples.session_exported 0 H1 H2 session_in_order).
Defined.

(* ===================================================================== *)
(** * Editing the mapping                                                *)
(* ===================================================================== *)

Section Editing.

Lemma set_set {V} (o : list (string * V)) k v w : set (set o k v) k w = set o k w.
Proof.
  induction o as [|[k0 v0] rest IH]; simpl.
  - now rewrite String.eqb_refl.
  - destruct (String.eqb k0 k) eqn:E; simpl; rewrite E; [reflexivity | now rewrite IH].
Qed.

Lemma set_same {V} (o : list (string * V)) k v : lookup o k = Some v -> set o k v = o.
Proof.
  induction o as [|[k0 v0] rest IH]; simpl; [discriminate|].
  destruct (String.eqb k0 k); [now intros [= ->] | intros H; now rewrite IH].
Qed.

Lemma tag_set_same o k v : tag (set o k v) k = v.
Proof. unfold tag. now rewrite lookup_set_same. Qed.

Lemma tag_set_other o k k' v : k <> k' -> tag (set o k v) k' = tag o k'.
Proof. intros H. unfold tag. now rewrite lookup_set_other. Qed.

Lemma key_string_inj a b : key_string a = key_string b -> a = b.
Proof. destruct a, b; simpl; intros H; try reflexivity; discriminate H. Qed.

Lemma is_boolean_tag o k :
  Spec.is_boolean (tag o k) = true -> exists b, lookup o k = Some (VBool b).
Proof.
  unfold tag. destruct (lookup o k) as [[| |b| | | |]|]; try discriminate.
  intros _. now exists b.
Qed.

(** X12. Toggling the same tag on the same identifier twice restores
    the item list, provided the tag of every item with that identifier was
    a boolean to begin with (a tag that is missing or not a boolean becomes
    a boolean at the first toggle). *)
Theorem toggleDomain_twice (id0 : string) (k : DomainKey) (prev : list MapItem) :
  Forall (fun it => id it = id0 ->
                    Spec.is_boolean (tag (domains it) (key_string k)) = true) prev ->
  toggleDomain id0 k (toggleDomain id0 k prev) = prev.
Proof.
  induction 1 as [|it rest Hit _ IH]; [reflexivity|].
  unfold toggleDomain in *. cbn [map]. rewrite IH. f_equal.
  destruct (String.eqb (id it) id0) eqn:E; cbn [id]; rewrite E; [|reflexivity].
  cbn [id type name notes domains].
  rewrite tag_set_same, set_set. cbn [truthy].
  apply String.eqb_eq in E.
  destruct (is_boolean_tag _ _ (Hit E)) as [b Hb].
  unfold tag. rewrite Hb. cbn [truthy]. rewrite negb_involutive.
  rewrite (set_same _ _ _ Hb). destruct it. reflexivity.
Qed.

Lemma forallb_set_canonical (o : object) k v :
  Spec.mem k (keys o) = true -> keys (set o k v) = keys o.
Proof. intros H. now rewrite keys_set, H. Qed.

Lemma booleans_set (o : object) k b :
  forallb (fun kv => Spec.is_boolean (snd kv)) o = true ->
  forallb (fun kv => Spec.is_boolean (snd kv)) (set o k (VBool b)) = true.
Proof.
  induction o as [|[k0 v0] rest IH]; simpl; [reflexivity|].
  intros H. apply andb_true_iff in H. destruct H as [H0 H].
  destruct (String.eqb k0 k); simpl; [exact H | now rewrite H0, IH].
Qed.

Lemma canonical_key_string k : Spec.mem (key_string k) Spec.canonical_keys = true.
Proof. destruct k; reflexivity. Qed.

Lemma six_booleans_set (o : object) (k : DomainKey) b :
  Spec.six_booleans o = true -> Spec.six_booleans (set o (key_string k) (VBool b)) = true.
Proof.
  unfold Spec.six_booleans. rewrite !andb_true_iff.
  intros [[[H1 H2] H3] H4].
  assert (Hmem : Spec.mem (key_string k) (keys o) = true).
  { rewrite forallb_forall in H2. apply H2.
    apply mem_true_in, canonical_key_string. }
  rewrite (forallb_set_canonical o _ _ Hmem). repeat split; auto.
  now apply booleans_set.
Qed.

Lemma tags_in_order_set (o : object) k v :
  Spec.tags_in_order o -> Spec.tags_in_order (set o k v).
Proof.
  intros [H1 H2]. split; [|now apply nodupb_set].
  assert (Hlen : 6 <= length o).
  { rewrite <- (keys_length o).
    destruct (keys o) as [|? [|? [|? [|? [|? [|? ?]]]]]]; try discriminate H1.
    simpl. lia. }
  rewrite <- H1, <- (firstn_keys_set o k v), firstn_firstn, Nat.min_l; auto.
Qed.




(** X13. Toggling keeps the tag objects well formed: items whose tags are
    exactly the six booleans stay so, and tags in order stay in order, so a
    toggled mapping still reloads without loss. *)
Theorem toggleDomain_keeps_tags_well_formed (id0 : string) (k : DomainKey) (prev : list MapItem) :
  (Forall (fun it => Spec.six_booleans (domains it) = true) prev ->
   Forall (fun it => Spec.six_booleans (domains it) = true) (toggleDomain id0 k prev))
  /\ (Forall (fun it => Spec.tags_in_order (domains it)) prev ->
      Forall (fun it => Spec.tags_in_order (domains it)) (toggleDomain id0 k prev)).
Proof.
  unfold toggleDomain. split; intros H; apply Forall_map;
    (eapply Forall_impl; [|exact H]); intros it Hit; cbv beta;
    destruct (String.eqb (id it) id0); auto; cbn [domains].
  - now apply six_booleans_set.
  - now apply tags_in_order_set.
Qed.

Lemma length_filter_map {A B} (f : B -> bool) (g : A -> B) (l : list A) :
  length (filter f (map g l)) = length (filter (fun x => f (g x)) l).
Proof.
  induction l as [|x rest IH]; simpl; [reflexivity|].
  destruct (f (g x)); simpl; now rewrite IH.
Qed.

(** X14. After a toggle of key [k] on identifier [id0], the count of
    domain [k] is the number of items that either have that identifier and
    were not tagged, or have another identifier and are tagged; the counts
    of the other five domains are what they were. *)
Theorem toggleDomain_coverage (id0 : string) (k : DomainKey) (prev : list MapItem) (d : Domain) :
  Forall (fun it => Spec.nodupb (keys (domains it)) = true) prev ->
  cov (coverage (toggleDomain id0 k prev)) d
  = if Spec.key_eqb (key d) k
    then Int (length (filter (fun it => xorb (String.eqb (id it) id0)
                                             (truthy (tag (domains it) (key_string k))))
                             prev))
    else cov (coverage prev) d.
Proof.
  intros Hnd.
  assert (Hnd' : Forall (fun it => Spec.nodupb (keys (domains it)) = true)
                        (toggleDomain id0 k prev)).
  { unfold toggleDomain. apply Forall_map. eapply Forall_impl; [|exact Hnd].
    intros it Hit. cbv beta. destruct (String.eqb (id it) id0); auto.
    cbn [domains]. now apply nodupb_set. }
  unfold cov. rewrite (coverage_at _ (key d) Hnd'), (coverage_at _ (key d) Hnd).
  unfold Spec.count_tagged, toggleDomain. rewrite length_filter_map.
  unfold Spec.key_eqb. destruct (String.eqb (key_string (key d)) (key_string k)) eqn:E.
  - apply String.eqb_eq in E. rewrite E. do 2 f_equal.
    apply filter_ext. intros it.
    destruct (String.eqb (id it) id0); cbn [domains]; [|reflexivity].
    rewrite tag_set_same. cbn [truthy xorb].
    now destruct (truthy (tag (domains it) (key_string k))).
  - apply String.eqb_neq in E. do 2 f_equal.
    apply filter_ext. intros it.
    destruct (String.eqb (id it) id0); cbn [domains]; [|reflexivity].
    rewrite tag_set_other; [reflexivity | congruence].
Qed.

Lemma coverage_by_domains (a b : list MapItem) :
  map domains a = map domains b -> coverage a = coverage b.
Proof.
  unfold coverage.
  generalize [ ("awareness", Int 0); ("coagency", Int 0); ("practice", Int 0);
               ("ethics", Int 0); ("governance", Int 0); ("reflection", Int 0) ].
  revert b. induction a as [|x a IH]; intros [|y b] c H; try discriminate H.
  - reflexivity.
  - simpl in H. injection H as Hxy Hab. simpl. rewrite Hxy. now apply IH.
Qed.

(** X15. Editing an item's name, notes, type or identifier never changes
    coverage: a patch without a [domains] field leaves every count, and
    with them the export gate and the observations' picks, as they were;
    the list keeps its length. *)
Theorem updateItem_keeps_coverage (id0 : string) (patch : ItemPatch) (prev : list MapItem) :
  patch_domains patch = None ->
  coverage (updateItem id0 patch prev) = coverage prev
  /\ length (updateItem id0 patch prev) = length prev.
Proof.
  intros Hp. split; [|apply length_map].
  apply coverage_by_domains. unfold updateItem. rewrite map_map.
  apply map_ext. intros it.
  destruct (String.eqb (id it) id0); [|reflexivity].
  cbn [domains]. now rewrite Hp.
Qed.

Lemma coverage_app_blank (prev : list MapItem) (it : MapItem) :
  domains it = emptyDomains -> coverage (prev ++ [it]) = coverage prev.
Proof.
  intros Hd. unfold coverage. rewrite fold_left_app. cbn [fold_left].
  rewrite Hd. reflexivity.
Qed.

(** X16. [addItem] appends one blank item of the requested type and
    leaves the items before it, and every coverage count, as they were. *)
Theorem addItem_appends_blank (h : Host) (t : MapItemType) (prev : list MapItem) (n : nat) :
  let next := fst (addItem h t prev n) in
  next = (prev ++ [ {| id := uuid h n; type := t; name := ""; notes := "";
                       domains := emptyDomains |} ])%list
  /\ length next = S (length prev)
  /\ firstn (length prev) next = prev
  /\ coverage next = coverage prev.
Proof.
  cbv zeta. unfold addItem, bind, ret. rewrite newItem_eq. cbn [fst].
  repeat split.
  - rewrite length_app. simpl. lia.
  - rewrite firstn_app, Nat.sub_diag, firstn_all. apply app_nil_r.
  - now apply coverage_app_blank.
Qed.


End Editing.


Lemma toggleDomain_twice_witness :
  Forall (fun it => id it = "m1" ->
                    Spec.is_boolean (tag (domains it) (key_string ethics)) = true)
         [Samples.workshop; Samples.foundations]
  /\ toggleDomain "m1" ethics (toggleDomain "m1" ethics [Samples.workshop; Samples.foundations])
     = [Samples.workshop; Samples.foundations].
Proof.
  assert (H : Forall (fun it => id it = "m1" ->
                                Spec.is_boolean (tag (domains it) (key_string ethics)) = true)
                     [Samples.workshop; Samples.foundations])
    by (repeat constructor).
  split; [exact H|].
  exact (toggleDomain_twice "m1" ethics [Samples.workshop; Samples.foundations] H).
Defined.

Lemma toggleDomain_keeps_tags_well_formed_witness :
  Forall (fun it => Spec.six_booleans (domains it) = true)
         [Samples.workshop; Samples.foundations]
  /\ Forall (fun it => Spec.six_booleans (domains it) = true)
            (toggleDomain "m1" ethics [Samples.workshop; Samples.foundations]).
Proof.
  assert (H : Forall (fun it => Spec.six_booleans (domains it) = true)
                     [Samples.workshop; Samples.foundations])
    by (repeat constructor).
  split; [exact H|].
  exact (proj1 (toggleDomain_keeps_tags_well_formed "m1" ethics
                  [Samples.workshop; Samples.foundations]) H).
Defined.

Lemma toggleDomain_coverage_witness :
  Forall (fun it => Spec.nodupb (keys (domains it)) = true) Samples.twins
  /\ Forall (fun d => cov (coverage (toggleDomain "dup" ethics Samples.twins)) d
                      = if Spec.key_eqb (key d) ethics then Int 1 else Int 0)
            DOMAINS.
Proof.
  assert (H : Forall (fun it => Spec.nodupb (keys (domains it)) = true) Samples.twins)
    by (repeat constructor).
  split; [exact H|].
  apply Forall_forall. intros d Hd.
  rewrite (toggleDomain_coverage "dup" ethics Samples.twins d H).
  destruct (Spec.key_eqb (key d) ethics) eqn:E; [reflexivity|].
  repeat (destruct Hd as [<-|Hd]; [first [reflexivity | discriminate E]|]).
  destruct Hd.
Defined.

Lemma updateItem_keeps_coverage_witness :
  patch_domains (Samples.rename "Seminar") = None
  /\ coverage (updateItem "a1" (Samples.rename "Seminar") [Samples.workshop])
     = coverage [Samples.workshop]
  /\ length (updateItem "a1" (Samples.rename "Seminar") [Samples.workshop]) = 1.
Proof.
  split; [reflexivity|].
  exact (updateItem_keeps_coverage "a1" (Samples.rename "Seminar") [Samples.workshop]
           eq_refl).
Defined.


(* ===================================================================== *)
(** * Table cells and rows of the report                                 *)
(* ===================================================================== *)

Section Cells.

Lemma escapePipes_no_leading_pipe s :
  match escapePipes s with
  | String c _ => Ascii.eqb c "|" = false
  | EmptyString => True
  end.
Proof.
  destruct s as [|c rest]; simpl; [exact I|].
  destruct (Ascii.eqb c "|") eqn:E; [reflexivity | exact E].
Qed.

Lemma unescape_escape s : Spec.unescapePipes (escapePipes s) = s.
Proof.
  induction s as [|c rest IH]; [reflexivity|]. simpl.
  destruct (Ascii.eqb c "|") eqn:E.
  - simpl. rewrite E, IH. reflexivity.
  - simpl. destruct (Ascii.eqb c Json.backslash) eqn:Eb; [|now rewrite IH].
    pose proof (escapePipes_no_leading_pipe rest) as Hlead.
    destruct (escapePipes rest) as [|c' s'] eqn:Er.
    + rewrite <- IH. reflexivity.
    + rewrite Hlead, <- IH. reflexivity.
Qed.

Lemma bare_pipes_escape s : forall b, Spec.bare_pipes b (escapePipes s) = 0.
Proof.
  induction s as [|c rest IH]; intro b; [reflexivity|]. simpl.
  destruct (Ascii.eqb c "|") eqn:E.
  - apply Ascii.eqb_eq in E. subst c. simpl. apply IH.
  - simpl. rewrite E. simpl. apply IH.
Qed.

(** X18. [escapePipes] loses nothing and leaves no pipe bare: dropping
    the backslash in front of each pipe gives the input back (so two
    different cell texts never render alike), and in the result every pipe
    directly follows a backslash. *)
Theorem escapePipes_reversible (s : string) :
  Spec.unescapePipes (escapePipes s) = s
  /\ Spec.bare_pipes false (escapePipes s) = 0
  /\ Spec.bare_pipes true (escapePipes s) = 0.
Proof. repeat split; [apply unescape_escape | apply bare_pipes_escape ..]. Qed.

(** A piece followed by a space: the space resets the scan. *)
Lemma bare_pipes_app_space x y : forall b,
  Spec.bare_pipes b (x ++ String " " y) = Spec.bare_pipes b x + Spec.bare_pipes false y.
Proof.
  induction x as [|c rest IH]; intro b; simpl; [reflexivity|].
  now rewrite IH, Nat.add_assoc.
Qed.

Lemma string_of_uint_digits d : Spec.all_chars is_digit (NilEmpty.string_of_uint d) = true.
Proof. induction d; simpl; auto. Qed.

Lemma string_of_nat_digits n : Spec.all_chars is_digit (string_of_nat n) = true.
Proof. apply string_of_uint_digits. Qed.

Lemma bare_pipes_digits s : Spec.all_chars is_digit s = true ->
  forall b, Spec.bare_pipes b s = 0.
Proof.
  induction s as [|c rest IH]; intros H b; [reflexivity|]. simpl in *.
  apply andb_true_iff in H. destruct H as [Hc H].
  rewrite (IH H).
  destruct (Ascii.eqb c "|") eqn:E; [|reflexivity].
  apply Ascii.eqb_eq in E. subst c. discriminate Hc.
Qed.

(** X19. In a table row the pipes that do not directly follow a backslash
    are exactly the five column separators, whatever the name, the notes
    and the tags of the item contain. *)
Theorem renderRow_has_five_separators (idx : nat) (it : MapItem) :
  Spec.bare_pipes false (renderRow idx it) = 5.
Proof.
  unfold renderRow.
  set (nm := or_else (trim (or_else (name it) "")) "Untitled").
  set (tags := map short _). set (nt := trim (or_else (notes it) "")).
  set (cell2 := if length tags =? 0 then "_None_" else escapePipes (join ", " tags)).
  set (cell3 := if String.eqb nt "" then "_—_" else escapePipes nt).
  assert (H2 : forall b, Spec.bare_pipes b cell2 = 0).
  { intro b. unfold cell2. destruct (length tags =? 0); [now destruct b|].
    apply bare_pipes_escape. }
  assert (H3 : forall b, Spec.bare_pipes b cell3 = 0).
  { intro b. unfold cell3. destruct (String.eqb nt ""); [now destruct b|].
    apply bare_pipes_escape. }
  change (Spec.bare_pipes false
            ("| " ++ string_of_nat (idx + 1) ++ String " " ("| " ++ escapePipes nm
               ++ String " " ("| " ++ cell2 ++ String " " ("| " ++ cell3
               ++ String " " "|")))) = 5).
  cbn [append Spec.bare_pipes Ascii.eqb Bool.eqb andb negb].
  rewrite bare_pipes_app_space. cbn [Spec.bare_pipes Ascii.eqb Bool.eqb andb negb].
  rewrite bare_pipes_app_space. cbn [Spec.bare_pipes Ascii.eqb Bool.eqb andb negb].
  rewrite bare_pipes_app_space. cbn [Spec.bare_pipes Ascii.eqb Bool.eqb andb negb].
  rewrite bare_pipes_app_space. cbn [Spec.bare_pipes Ascii.eqb Bool.eqb andb negb].
  rewrite (bare_pipes_digits _ (string_of_nat_digits (idx + 1))), bare_pipes_escape, H2, H3.
  reflexivity.
Qed.

Lemma renderRows_length l : forall idx, length (renderRows idx l) = length l.
Proof. induction l as [|it rest IH]; intro idx; simpl; [|rewrite IH]; reflexivity. Qed.

(** X20. Every item is rendered in exactly one of the three sections:
    the sizes of the three groups, and so the numbers of table rows, add
    up to the number of items. *)
Theorem report_rows_cover_items (items : list MapItem) :
  length (renderRows 0 (group items Module'))
  + length (renderRows 0 (group items Activity))
  + length (renderRows 0 (group items Assessment))
  = length items.
Proof.
  rewrite !renderRows_length. unfold group.
  induction items as [|it rest IH]; [reflexivity|]. simpl.
  destruct (type it); simpl; lia.
Qed.

End Cells.

(* ===================================================================== *)
(** * The shape of slugs and of dates                                    *)
(* ===================================================================== *)

Section SlugShape.

Lemma hyphen_not_alnum c : Ascii.eqb c hyphen = true -> is_alnum c = false.
Proof. intros H. apply Ascii.eqb_eq in H. now subst c. Qed.

Lemma replace_runs_chars s : forall b, Spec.all_chars Spec.slug_char (replace_runs b s) = true.
Proof.
  induction s as [|c rest IH]; intro b; [reflexivity|]. simpl.
  destruct (is_alnum c) eqn:Ec.
  - simpl. unfold Spec.slug_char at 1. rewrite Ec. simpl. apply IH.
  - destruct b; [apply IH|]. simpl. apply IH.
Qed.

Lemma drop_leading_chars p t :
  Spec.all_chars p t = true -> Spec.all_chars p (drop_leading_hyphen t) = true.
Proof.
  destruct t as [|c t]; simpl; [reflexivity|]. intros H.
  apply andb_true_iff in H. destruct H as [Hc H].
  destruct (Ascii.eqb c hyphen); simpl; [exact H | now rewrite Hc].
Qed.

Lemma drop_trailing_cons c c' r :
  drop_trailing_hyphen (String c (String c' r))
  = String c (drop_trailing_hyphen (String c' r)).
Proof. reflexivity. Qed.

Lemma drop_trailing_chars p t :
  Spec.all_chars p t = true -> Spec.all_chars p (drop_trailing_hyphen t) = true.
Proof.
  induction t as [|c [|c' r] IH]; [reflexivity| |].
  - simpl. intros H. destruct (Ascii.eqb c hyphen); [reflexivity | exact H].
  - intros H. rewrite drop_trailing_cons.
    change (p c && Spec.all_chars p (String c' r) = true) in H.
    apply andb_true_iff in H. destruct H as [Hc H].
    change (p c && Spec.all_chars p (drop_trailing_hyphen (String c' r)) = true).
    now rewrite Hc, IH.
Qed.

Lemma drop_trailing_start t :
  Spec.starts_with_hyphen t = false ->
  Spec.starts_with_hyphen (drop_trailing_hyphen t) = false.
Proof.
  destruct t as [|c [|c' r]]; [reflexivity| |].
  - simpl. intros H. now rewrite H.
  - rewrite drop_trailing_cons. intros H. exact H.
Qed.

Lemma drop_trailing_single t :
  Spec.single_hyphens t = true -> Spec.single_hyphens (drop_trailing_hyphen t) = true.
Proof.
  induction t as [|c [|c' r] IH]; [reflexivity| |].
  - simpl. intros _. destruct (Ascii.eqb c hyphen); reflexivity.
  - intros H. rewrite drop_trailing_cons.
    pose proof (single_hyphens_tail _ _ H) as Ht. specialize (IH Ht).
    destruct (drop_trailing_hyphen (String c' r)) as [|d u] eqn:Ed; [reflexivity|].
    assert (Hd : d = c').
    { destruct r as [|c'' r'].
      - simpl in Ed. destruct (Ascii.eqb c' hyphen); [discriminate | now injection Ed].
      - rewrite drop_trailing_cons in Ed. now injection Ed. }
    subst d.
    change (negb (Ascii.eqb c hyphen && Ascii.eqb c' hyphen)
            && Spec.single_hyphens (String c' u) = true).
    change (negb (Ascii.eqb c hyphen && Ascii.eqb c' hyphen)
            && Spec.single_hyphens (String c' r) = true) in H.
    apply andb_true_iff in H. destruct H as [H1 _]. now rewrite H1, IH.
Qed.

Lemma drop_trailing_end t :
  Spec.single_hyphens t = true ->
  Spec.ends_with_hyphen (drop_trailing_hyphen t) = false.
Proof.
  induction t as [|c [|c' r] IH]; [reflexivity| |].
  - simpl. intros _. destruct (Ascii.eqb c hyphen) eqn:E; [reflexivity | simpl; exact E].
  - intros H. rewrite drop_trailing_cons.
    pose proof (single_hyphens_tail _ _ H) as Ht. specialize (IH Ht).
    destruct (drop_trailing_hyphen (String c' r)) as [|d u] eqn:Ed.
    + simpl. destruct r as [|c'' r'].
      * simpl in Ed. destruct (Ascii.eqb c' hyphen) eqn:E'; [|discriminate].
        change (negb (Ascii.eqb c hyphen && Ascii.eqb c' hyphen) && true = true) in H.
        rewrite E', andb_true_r in H.
        now destruct (Ascii.eqb c hyphen).
      * rewrite drop_trailing_cons in Ed. discriminate.
    + exact IH.
Qed.

Lemma safeSlug_shaped s : Spec.slug_shaped (safeSlug s) = true.
Proof.
  unfold safeSlug, replace_edges, Spec.slug_shaped.
  set (t := replace_runs false (toLowerCase (or_else s ""))).
  pose proof (replace_runs_chars (toLowerCase (or_else s "")) false) as Hc.
  pose proof (proj1 (replace_runs_single false (toLowerCase (or_else s "")))) as Hs.
  fold t in Hc, Hs.
  assert (Hstart : Spec.starts_with_hyphen (drop_leading_hyphen t) = false).
  { destruct t as [|c u]; [reflexivity|]. simpl.
    destruct (Ascii.eqb c hyphen) eqn:E; [|simpl; exact E].
    now apply (single_hyphens_head c). }
  pose proof (drop_leading_single t Hs) as Hs'.
  rewrite (drop_trailing_chars _ _ (drop_leading_chars _ _ Hc)).
  rewrite (drop_trailing_start _ Hstart), (drop_trailing_end _ Hs').
  rewrite (drop_trailing_single _ Hs'). reflexivity.
Qed.

(** X21. A slug consists of the characters [a-z], [0-9] and the hyphen
    only, neither begins nor ends with a hyphen, and has no two hyphens in
    a row: it is safe as a file name stem whatever the title was. *)
Theorem safeSlug_is_slug_shaped (s : string) :
  Spec.all_chars Spec.slug_char (safeSlug s) = true
  /\ Spec.starts_with_hyphen (safeSlug s) = false
  /\ Spec.ends_with_hyphen (safeSlug s) = false
  /\ Spec.single_hyphens (safeSlug s) = true.
Proof.
  pose proof (safeSlug_shaped s) as H. unfold Spec.slug_shaped in H.
  rewrite !andb_true_iff, !negb_true_iff in H. tauto.
Qed.

Lemma toLowerCase_slug_char c rest :
  Spec.slug_char c = true ->
  toLowerCase (String c rest) = String c (toLowerCase rest).
Proof.
  destruct c as [[] [] [] [] [] [] [] []]; intros H;
    try discriminate H; reflexivity.
Qed.

Lemma toLowerCase_slug t : Spec.all_chars Spec.slug_char t = true -> toLowerCase t = t.
Proof.
  induction t as [|c rest IH]; [reflexivity|]. intros H.
  change (Spec.slug_char c && Spec.all_chars Spec.slug_char rest = true) in H.
  apply andb_true_iff in H. destruct H as [Hc H].
  now rewrite (toLowerCase_slug_char c rest Hc), IH.
Qed.

Lemma replace_runs_slug t : forall b,
  Spec.all_chars Spec.slug_char t = true ->
  Spec.single_hyphens t = true ->
  (b = true -> Spec.starts_with_hyphen t = false) ->
  replace_runs b t = t.
Proof.
  induction t as [|c rest IH]; intros b Hc Hs Hb; [reflexivity|].
  simpl in Hc. apply andb_true_iff in Hc. destruct Hc as [Hc Hrest].
  pose proof (single_hyphens_tail _ _ Hs) as Hs'. simpl.
  destruct (is_alnum c) eqn:Ea.
  - rewrite (IH false Hrest Hs'); [reflexivity | discriminate].
  - unfold Spec.slug_char in Hc. rewrite Ea in Hc. simpl in Hc.
    destruct b; [specialize (Hb eq_refl); simpl in Hb; congruence|].
    rewrite (IH true Hrest Hs'); [|intros _; now apply (single_hyphens_head c)].
    apply Ascii.eqb_eq in Hc. now subst c.
Qed.

Lemma drop_trailing_none t :
  Spec.ends_with_hyphen t = false -> drop_trailing_hyphen t = t.
Proof.
  induction t as [|c [|c' r] IH]; [reflexivity| |].
  - simpl. now intros ->.
  - intros H. rewrite drop_trailing_cons, IH; [reflexivity | exact H].
Qed.

Lemma slug_shaped_fixed t : Spec.slug_shaped t = true -> safeSlug t = t.
Proof.
  unfold Spec.slug_shaped. rewrite !andb_true_iff, !negb_true_iff.
  intros [[[Hc Hstart] Hend] Hs].
  unfold safeSlug, replace_edges.
  rewrite or_else_empty_right, (toLowerCase_slug t Hc).
  rewrite (replace_runs_slug t false Hc Hs) by discriminate.
  assert (Hl : drop_leading_hyphen t = t).
  { destruct t as [|c u]; [reflexivity|]. simpl in *. now rewrite Hstart. }
  rewrite Hl. now apply drop_trailing_none.
Qed.

(** X22. [safeSlug] is idempotent: the slug of a slug is that slug. *)
Theorem safeSlug_idempotent (s : string) : safeSlug (safeSlug s) = safeSlug s.
Proof. apply slug_shaped_fixed, safeSlug_shaped. Qed.

Lemma has_alnum_replace_runs s : forall b,
  Spec.has_alnum (replace_runs b s) = Spec.has_alnum s.
Proof.
  induction s as [|c rest IH]; intro b; [reflexivity|]. simpl.
  destruct (is_alnum c) eqn:Ea; simpl.
  - now rewrite Ea.
  - destruct b; simpl; apply IH.
Qed.

Lemma has_alnum_drop_leading t :
  Spec.has_alnum (drop_leading_hyphen t) = Spec.has_alnum t.
Proof.
  destruct t as [|c u]; [reflexivity|]. simpl.
  destruct (Ascii.eqb c hyphen) eqn:E; [|reflexivity].
  now rewrite (hyphen_not_alnum c E).
Qed.

Lemma has_alnum_drop_trailing t :
  Spec.has_alnum (drop_trailing_hyphen t) = Spec.has_alnum t.
Proof.
  induction t as [|c [|c' r] IH]; [reflexivity| |].
  - simpl. destruct (Ascii.eqb c hyphen) eqn:E; [|reflexivity].
    now rewrite (hyphen_not_alnum c E).
  - rewrite drop_trailing_cons.
    change (is_alnum c || Spec.has_alnum (drop_trailing_hyphen (String c' r))
            = is_alnum c || Spec.has_alnum (String c' r)).
    now rewrite IH.
Qed.

Lemma has_alnum_safeSlug s : Spec.has_alnum (safeSlug s) = Spec.has_alnum (toLowerCase s).
Proof.
  unfold safeSlug, replace_edges.
  now rewrite has_alnum_drop_trailing, has_alnum_drop_leading,
    has_alnum_replace_runs, or_else_empty_right.
Qed.

Lemma safeSlug_empty s :
  safeSlug s = "" <-> Spec.has_alnum (toLowerCase s) = false.
Proof.
  rewrite <- has_alnum_safeSlug. split; [now intros ->|].
  intros Hno. pose proof (safeSlug_shaped s) as H.
  destruct (safeSlug s) as [|c u]; [reflexivity|].
  unfold Spec.slug_shaped in H. rewrite !andb_true_iff, !negb_true_iff in H.
  destruct H as [[[Hc Hstart] _] _]. simpl in *.
  apply orb_false_iff in Hno. destruct Hno as [Ha _].
  unfold Spec.slug_char in Hc. rewrite Ha, Hstart in Hc. discriminate Hc.
Qed.

(** X23. The slug is empty exactly when the lower-cased title has no
    character in [a-z0-9]; the exported file is then named after the
    literal programme-mapping, so a title made of punctuation, or of
    letters outside the ASCII range only, never gives a file name that
    starts with a hyphen. *)
Theorem export_name_falls_back (h : Host) (st : State) :
  (safeSlug (programmeTitle (programme st)) = ""
   <-> Spec.has_alnum (toLowerCase (programmeTitle (programme st))) = false)
  /\ (Spec.has_alnum (toLowerCase (programmeTitle (programme st))) = false ->
      fst (exportJSON h st)
      = ("programme-mapping" ++ "-"
           ++ or_else (mappingDate (programme st)) (todayISODate h)) ++ ".json"
      /\ fst (exportMarkdown h st)
         = ("programme-mapping" ++ "-"
              ++ or_else (mappingDate (programme st)) (todayISODate h)) ++ ".md").
Proof.
  split; [apply safeSlug_empty|]. intros Hno.
  assert (E : exportStem h (programme st)
              = "programme-mapping" ++ "-"
                  ++ or_else (mappingDate (programme st)) (todayISODate h)).
  { unfold exportStem. f_equal.
    destruct (programmeTitle (programme st)) as [|c u] eqn:Et; [reflexivity|].
    rewrite (or_else_nonempty (String c u)) by discriminate.
    now rewrite (proj2 (safeSlug_empty (String c u)) Hno). }
  unfold exportJSON, exportMarkdown. cbn [fst]. rewrite E. split; reflexivity.
Qed.

End SlugShape.

Lemma export_name_falls_back_witness :
  Spec.has_alnum (toLowerCase "¿¡!?") = false
  /\ fst (exportJSON Samples.host
            {| programme := updateProgramme
                              {| patch_programmeTitle := Some "¿¡!?";
                                 patch_awardLevel := None; patch_department := None;
                                 patch_institution := None; patch_mappingDate := Some "";
                                 patch_version := None |}
                              Samples.public_health;
               items := [Samples.workshop] |})
     = "programme-mapping-2024-03-01.json".
Proof.
  split; [reflexivity|].
  match goal with
  | |- fst (exportJSON ?h ?st) = _ =>
      destruct (proj2 (export_name_falls_back h st) eq_refl) as [-> _]
  end.
  reflexivity.
Defined.

#[local] Set Warnings "-abstract-large-number".

Section Dates.

Lemma four_digit_years :
  forallb (fun y => Spec.digits_of_length 4 (string_of_nat y)) (seq 1000 (9 * 1000)) = true.
Proof. vm_compute. reflexivity. Qed.

Lemma last_four_digit_year : 9999 = 9 * 1111.
Proof. vm_compute. reflexivity. Qed.

Lemma two_digit_fields :
  forallb (fun n => Spec.digits_of_length 2 (padStart2 (string_of_nat n))) (seq 0 100) = true.
Proof. vm_compute. reflexivity. Qed.

Lemma digits_of_length_4 s :
  Spec.digits_of_length 4 s = true ->
  exists a b c d, s = String a (String b (String c (String d "")))
    /\ Spec.all_chars is_digit s = true.
Proof.
  unfold Spec.digits_of_length. intros H. apply andb_true_iff in H.
  destruct H as [Hlen Hd]. apply Nat.eqb_eq in Hlen.
  destruct s as [|a [|b [|c [|d [|e r]]]]]; try discriminate Hlen.
  now exists a, b, c, d.
Qed.

Lemma digits_of_length_2 s :
  Spec.digits_of_length 2 s = true ->
  exists a b, s = String a (String b "") /\ Spec.all_chars is_digit s = true.
Proof.
  unfold Spec.digits_of_length. intros H. apply andb_true_iff in H.
  destruct H as [Hlen Hd]. apply Nat.eqb_eq in Hlen.
  destruct s as [|a [|b [|c r]]]; try discriminate Hlen.
  now exists a, b.
Qed.

(** X24. For a four-digit year, [todayISODate] has the shape
    [YYYY-MM-DD]: ten characters, the month (counted from 1) and the day
    zero-padded to two digits. *)
Theorem todayISODate_shape (h : Host) :
  1000 <= fullYear h <= 9999 -> month h <= 11 -> 1 <= date h <= 31 ->
  Spec.iso_date_shaped (todayISODate h) = true
  /\ todayISODate h
     = string_of_nat (fullYear h) ++ "-"
         ++ (if month h + 1 <? 10 then "0" else "") ++ string_of_nat (month h + 1) ++ "-"
         ++ (if date h <? 10 then "0" else "") ++ string_of_nat (date h).
Proof.
  intros Hy Hm Hd. rewrite last_four_digit_year in Hy.
  pose proof four_digit_years as HY. rewrite forallb_forall in HY.
  pose proof two_digit_fields as HF. rewrite forallb_forall in HF.
  assert (Ey := HY (fullYear h) ltac:(apply in_seq; lia)).
  assert (Em := HF (month h + 1) ltac:(apply in_seq; lia)).
  assert (Ed := HF (date h) ltac:(apply in_seq; lia)).
  split.
  - unfold todayISODate.
    destruct (digits_of_length_4 _ Ey) as (y1 & y2 & y3 & y4 & -> & Hyd).
    destruct (digits_of_length_2 _ Em) as (m1 & m2 & -> & Hmd).
    destruct (digits_of_length_2 _ Ed) as (d1 & d2 & -> & Hdd).
    unfold Spec.iso_date_shaped, Spec.digits_of_length.
    cbn [append substring String.length Nat.eqb andb String.eqb Ascii.eqb Bool.eqb].
    now rewrite Hyd, Hmd, Hdd.
  - unfold todayISODate. do 2 f_equal.
    assert (Pad : forall n, In n (seq 0 100) ->
              padStart2 (string_of_nat n)
              = (if n <? 10 then "0" else "") ++ string_of_nat n).
    { apply Forall_forall.
      repeat (constructor; [reflexivity|]). constructor. }
    rewrite (Pad (month h + 1)) by (apply in_seq; lia).
    rewrite (Pad (date h)) by (apply in_seq; lia).
    destruct (month h + 1 <? 10); destruct (date h <? 10); reflexivity.
Qed.

End Dates.

Lemma todayISODate_shape_witness :
  (1000 <= fullYear Samples.host <= 9999)
  /\ month Samples.host <= 11
  /\ (1 <= date Samples.host <= 31)
  /\ Spec.iso_date_shaped (todayISODate Samples.host) = true
  /\ todayISODate Samples.host = "2024-03-01".
Proof.
  assert (H1 : 1000 <= fullYear Samples.host <= 9999)
    by (rewrite last_four_digit_year; simpl; lia).
  assert (H2 : month Samples.host <= 11) by (simpl; lia).
  assert (H3 : 1 <= date Samples.host <= 31) by (simpl; lia).
  split; [exact H1|]. split; [exact H2|]. split; [exact H3|].
  destruct (todayISODate_shape Samples.host H1 H2 H3) as [Hs ->].
  split; [|reflexivity].
  reflexivity.
Defined.

(* ===================================================================== *)
(** * Inputs of the wrong shape, and Clear                               *)
(* ===================================================================== *)

Section WrongShape.

(** X25. An item type survives normalisation only when it is exactly one
    of the three literals: [coerceMapItemType] answers Activity (or
    Assessment) for the string "Activity" (or "Assessment") and for
    nothing else; every other value, a misspelt or lower-case name
    included, becomes Module. *)
Theorem coerceMapItemType_exact (v : value) (t : MapItemType) :
  t <> Module' ->
  (coerceMapItemType v = t <-> v = VStr (type_string t)).
Proof.
  intros Ht. split.
  - destruct v as [| | | |s| |]; simpl; try (intros <-; now elim Ht).
    destruct (String.eqb s "Module") eqn:E1; [intros <-; now elim Ht|].
    destruct (String.eqb s "Activity") eqn:E2.
    { apply String.eqb_eq in E2. now intros <-; subst s. }
    destruct (String.eqb s "Assessment") eqn:E3.
    { apply String.eqb_eq in E3. now intros <-; subst s. }
    intros <-. now elim Ht.
  - intros ->. apply coerce_type_string.
Qed.

(** X26. An array element that is not an object (null, a number, a
    string, a nested array) becomes a blank Module item with a fresh
    identifier: it is kept as a placeholder, not dropped. *)
Theorem normalizeItem_of_non_object (h : Host) (x : value) (k : nat) :
  (forall o, x <> VObj o) ->
  normalizeItem h x k
  = ({| id := uuid h k; type := Module'; name := ""; notes := "";
        domains := emptyDomains |}, S k).
Proof.
  intros Hx. destruct x as [| | | | | |o]; try reflexivity. now elim (Hx o).
Qed.

Lemma prop_of_non_object v k : (forall o, v <> VObj o) -> prop v k = VUndefined.
Proof. intros Hv. destruct v as [| | | | | |o]; try reflexivity. now elim (Hv o). Qed.

(** X27. A stored entry that is JSON of the wrong shape (not an object:
    a number, null, a string, an array) is recovered like a corrupt one:
    [loadState] returns the full-default state. *)
Theorem loadState_of_wrong_shape (h : Host) (text : string) (parsed : value) (n : nat) :
  Json.parse text = Some parsed ->
  (forall o, parsed <> VObj o) ->
  loadState h (Some text) n
  = ({| programme := defaultProgrammeDetails h;
        items := [ {| id := uuid h n; type := Module'; name := ""; notes := "";
                      domains := emptyDomains |} ] |}, S n).
Proof.
  intros Hparse Hv. unfold loadState.
  destruct text as [|c u]; [discriminate Hparse|].
  rewrite Hparse, !(prop_of_non_object parsed _ Hv). reflexivity.
Qed.

(** X28. Import does not tell a mapping from other JSON: a file that
    parses to anything but an object passes the guard, and once the user
    confirms, the current mapping is replaced by the default programme and
    one blank Module item. *)
Theorem import_of_wrong_shape_resets
        (h : Host) (text : string) (parsed : value) (st : State) (n : nat) :
  Json.parse text = Some parsed ->
  (forall o, parsed <> VObj o) ->
  handleImportFile h true text st n
  = (({| programme := defaultProgrammeDetails h;
         items := [ {| id := uuid h n; type := Module'; name := ""; notes := "";
                       domains := emptyDomains |} ] |},
      [Confirm IMPORT_PROMPT]), S n).
Proof.
  intros Hparse Hv. unfold handleImportFile.
  rewrite Hparse, !(prop_of_non_object parsed _ Hv). reflexivity.
Qed.

(** X29. A confirmed Clear gives the very state a first run starts from
    (what [loadState] returns for an empty store): the default programme
    and one blank Module, with the exports and the Remove button disabled.
    A declined Clear changes nothing and draws no identifier. *)
Theorem clearAll_resets_to_first_run (h : Host) (st : State) (n : nat) :
  clearAll h true st n = loadState h None n
  /\ exportDisabled (fst (clearAll h true st n)) = true
  /\ removeDisabled (fst (clearAll h true st n)) = true
  /\ clearAll h false st n = (st, n).
Proof. repeat split; reflexivity. Qed.

End WrongShape.

Lemma coerceMapItemType_exact_witness :
  Activity <> Module'
  /\ coerceMapItemType (VStr "Activity") = Activity
  /\ coerceMapItemType (VStr "activity") <> Activity.
Proof.
  assert (H : Activity <> Module') by discriminate.
  split; [exact H|]. split.
  - apply (proj2 (coerceMapItemType_exact (VStr "Activity") Activity H)). reflexivity.
  - intros E. apply (proj1 (coerceMapItemType_exact (VStr "activity") Activity H)) in E.
    discriminate E.
Defined.

Lemma normalizeItem_of_non_object_witness :
  (forall o, VNull <> VObj o)
  /\ normalizeItem Samples.host VNull 3
     = ({| id := "uuid-3"; type := Module'; name := ""; notes := "";
           domains := emptyDomains |}, 4).
Proof.
  assert (H : forall o, VNull <> VObj o) by discriminate.
  split; [exact H|].
  exact (normalizeItem_of_non_object Samples.host VNull 3 H).
Defined.

Lemma loadState_of_wrong_shape_witness :
  Json.parse "[1, 2]" = Some (VArr [VNum Samples.one;
                                    VNum {| neg := false; mantissa := 2; exp10 := 0 |}])
  /\ (forall o, VArr [VNum Samples.one;
                      VNum {| neg := false; mantissa := 2; exp10 := 0 |}] <> VObj o)
  /\ loadState Samples.host (Some "[1, 2]") 0
     = ({| programme := defaultProgrammeDetails Samples.host;
           items := [ {| id := "uuid-0"; type := Module'; name := ""; notes := "";
                         domains := emptyDomains |} ] |}, 1).
Proof.
  assert (H1 : Json.parse "[1, 2]"
               = Some (VArr [VNum Samples.one;
                             VNum {| neg := false; mantissa := 2; exp10 := 0 |}]))
    by reflexivity.
  assert (H2 : forall o, VArr [VNum Samples.one;
                               VNum {| neg := false; mantissa := 2; exp10 := 0 |}]
                         <> VObj o) by discriminate.
  split; [exact H1|]. split; [exact H2|].
  exact (loadState_of_wrong_shape Samples.host "[1, 2]" _ 0 H1 H2).
Defined.

Lemma import_of_wrong_shape_resets_witness :
  Json.parse "null" = Some VNull
  /\ (forall o, VNull <> VObj o)
  /\ handleImportFile Samples.host true "null" Samples.session 0
     = (({| programme := defaultProgrammeDetails Samples.host;
            items := [ {| id := "uuid-0"; type := Module'; name := ""; notes := "";
                          domains := emptyDomains |} ] |},
         [Confirm IMPORT_PROMPT]), 1).
Proof.
  assert (H1 : Json.parse "null" = Some VNull) by reflexivity.
  assert (H2 : forall o, VNull <> VObj o) by discriminate.
  split; [exact H1|]. split; [exact H2|].
  exact (import_of_wrong_shape_resets Samples.host "null" VNull Samples.session 0 H1 H2).
Defined.
